(** * Slider: value/offset conversion and thumb state of
    [src/components/slider/index.tsx]

    The component is embedded as a record of its props, its React state and
    its instance fields; every method is a function from component to
    component.  Calls to the optional callbacks of the host application
    ([onValueChange], [onRangeChange], [onSeekStart], [onSeekEnd]) and to the
    accessibility announcer are appended to a trace carried by the
    component. *)

From Stdlib Require Import QArith Qround Qabs ZArith List Bool Lia Lqa.
Import ListNotations.

Local Open Scope Q_scope.

(** ** JavaScript numbers

    A [number] is a finite value or one of the three non-finite values of
    IEEE-754.  Finite values are exact rationals: the operations follow the
    IEEE-754 rules wherever a non-finite value or a zero divisor is involved
    and are exact otherwise, so rounding error and overflow of binary64 are
    not represented, and the two zeros are one. *)
Module JS.

Inductive number : Type :=
| NaN
| NegInf
| Fin (q : Q)
| PosInf.

Definition isNaN (a : number) : bool :=
  match a with NaN => true | _ => false end.


(** Sign of a rational as a comparison with zero. *)
Definition sgn (q : Q) : comparison := q ?= 0.

Definition neg (a : number) : number :=
  match a with
  | NaN => NaN
  | NegInf => PosInf
  | Fin q => Fin (- q)
  | PosInf => NegInf
  end.

Definition add (a b : number) : number :=
  match a, b with
  | NaN, _ | _, NaN => NaN
  | PosInf, NegInf | NegInf, PosInf => NaN
  | PosInf, _ | _, PosInf => PosInf
  | NegInf, _ | _, NegInf => NegInf
  | Fin p, Fin q => Fin (p + q)
  end.

Definition sub (a b : number) : number := add a (neg b).

(** An infinity scaled by the sign of the other factor. *)
Definition inf_signed (c : comparison) : number :=
  match c with Gt => PosInf | Lt => NegInf | Eq => NaN end.

Definition flip (c : comparison) : comparison :=
  match c with Gt => Lt | Lt => Gt | Eq => Eq end.

Definition mul (a b : number) : number :=
  match a, b with
  | NaN, _ | _, NaN => NaN
  | PosInf, PosInf | NegInf, NegInf => PosInf
  | PosInf, NegInf | NegInf, PosInf => NegInf
  | PosInf, Fin q | Fin q, PosInf => inf_signed (sgn q)
  | NegInf, Fin q | Fin q, NegInf => inf_signed (flip (sgn q))
  | Fin p, Fin q => Fin (p * q)
  end.

(** Division: a finite non-zero value over zero is an infinity, zero over
    zero is [NaN]. *)
Definition div (a b : number) : number :=
  match a, b with
  | NaN, _ | _, NaN => NaN
  | (PosInf | NegInf), (PosInf | NegInf) => NaN
  | PosInf, Fin q => match sgn q with Lt => NegInf | _ => PosInf end
  | NegInf, Fin q => match sgn q with Lt => PosInf | _ => NegInf end
  | Fin _, (PosInf | NegInf) => Fin 0
  | Fin p, Fin q =>
      match sgn q with
      | Eq => inf_signed (sgn p)
      | _ => Fin (p / q)
      end
  end.

(** [Math.abs]. *)
Definition abs (a : number) : number :=
  match a with
  | NaN => NaN
  | NegInf | PosInf => PosInf
  | Fin q => Fin (Qabs q)
  end.

(** [Math.round]: the nearest integer, a tie going up. *)
Definition roundQ (q : Q) : Q := inject_Z (Qfloor (q + (1 # 2))).

Definition round (a : number) : number :=
  match a with
  | Fin q => Fin (roundQ q)
  | other => other
  end.

(** The relational operators; every comparison with [NaN] is false. *)
Definition lt (a b : number) : bool :=
  match a, b with
  | NaN, _ | _, NaN => false
  | _, NegInf => false
  | NegInf, _ => true
  | PosInf, _ => false
  | Fin _, PosInf => true
  | Fin p, Fin q => match p ?= q with Lt => true | _ => false end
  end.

Definition gt (a b : number) : bool := lt b a.

Definition le (a b : number) : bool :=
  match a, b with
  | NaN, _ | _, NaN => false
  | NegInf, _ => true
  | _, PosInf => true
  | _, NegInf => false
  | PosInf, _ => false
  | Fin p, Fin q => match p ?= q with Gt => false | _ => true end
  end.

Definition ge (a b : number) : bool := le b a.

(** Strict equality [===] and its negation [!==]. *)
Definition seq (a b : number) : bool :=
  match a, b with
  | NegInf, NegInf | PosInf, PosInf => true
  | Fin p, Fin q => Qeq_bool p q
  | _, _ => false
  end.

Definition sne (a b : number) : bool := negb (seq a b).

(** [Math.max] and [Math.min] of two arguments. *)
Definition max (a b : number) : number :=
  match a, b with
  | NaN, _ | _, NaN => NaN
  | _, _ => if lt a b then b else a
  end.

Definition min (a b : number) : number :=
  match a, b with
  | NaN, _ | _, NaN => NaN
  | _, _ => if lt b a then b else a
  end.

(** Truthiness of a number in a condition. *)
Definition truthy (a : number) : bool :=
  match a with
  | NaN => false
  | Fin q => negb (Qeq_bool q 0)
  | _ => true
  end.

(** A possibly [undefined] number converted by a relational operator:
    [undefined] becomes [NaN]. *)
Definition toNumber (o : option number) : number :=
  match o with Some a => a | None => NaN end.

Definition truthy_opt (o : option number) : bool :=
  match o with Some a => truthy a | None => false end.

End JS.

Import JS.

Declare Scope js_scope.
Delimit Scope js_scope with js.
Bind Scope js_scope with number.
Notation "a === b" := (seq a b = true) (at level 70, no associativity) : js_scope.
Notation "a <== b" := (le a b = true) (at level 70, no associativity) : js_scope.
Notation "a << b" := (lt a b = true) (at level 70, no associativity) : js_scope.

(** Integer and rational literals as numbers. *)
Definition num (z : Z) : number := Fin (inject_Z z).
Coercion Fin : Q >-> number.

(** ** Props, state and instance fields *)

Record Measurements : Type := mkMeasurements {
  width : number;
  height : number
}.

(** [THUMB_SIZE]. *)
Definition THUMB_SIZE : number := num 24.

(** The props the component's logic reads.  [isRTL] is [Constants.isRTL],
    which the component reads from the environment. *)
Record SliderProps : Type := mkProps {
  value : number;
  initialMinimumValue : number;
  initialMaximumValue : number;
  minimumValue : number;
  maximumValue : number;
  step : number;
  disabled : bool;
  useRange : bool;
  disableRTL_prop : bool;
  isRTL : bool
}.

(** [defaultProps], the flags being absent (falsy) by default. *)
Definition defaultProps : SliderProps :=
  {| value := num 0;
     initialMinimumValue := num 0;
     initialMaximumValue := num 1;
     minimumValue := num 0;
     maximumValue := num 1;
     step := num 0;
     disabled := false;
     useRange := false;
     disableRTL_prop := false;
     isRTL := false |}.

(** The two thumb refs [activeThumbRef] can point to. *)
Inductive ThumbRef : Type := thumb | minThumb.

Definition ThumbRef_eqb (a b : ThumbRef) : bool :=
  match a, b with
  | thumb, thumb | minThumb, minThumb => true
  | _, _ => false
  end.

(** What the component hands to the host application and to the platform. *)
Inductive Call : Type :=
| onValueChange_call (v : number)
| onRangeChange_call (vmin vmax : number)
| onSeekStart_call
| onSeekEnd_call
| announceForAccessibility (newValue : number)
| warn_min_not_lower
| warn_value_not_in_range.

(** [State] of the React component. *)
Record State : Type := mkState {
  st_containerSize : Measurements;
  st_trackSize : Measurements;
  st_thumbSize : Measurements;
  measureCompleted : bool
}.

(** The component instance.  [thumb_current] and [minThumb_current] say
    whether the refs are attached to a mounted view; the style objects keep
    the fields the code assigns, [None] standing for a field that was never
    assigned. *)
Record Slider : Type := mkSlider {
  props : SliderProps;
  state : State;
  thumb_current : bool;
  minThumb_current : bool;
  activeThumbRef : ThumbRef;
  minTrackStyles_width : option number;
  minTrackStyles_left : option number;
  _x : number;
  _x_min : number;
  lastDx : number;
  initialValue : number;
  minInitialValue : number;
  lastValue : number;
  lastMinValue : number;
  thumbStyles_left : option number;
  minThumbStyles_left : option number;
  initialThumbSize : Measurements;
  containerSize : option Measurements;
  trackSize : option Measurements;
  thumbSize : option Measurements;
  shouldForceLTR : bool;
  trace : list Call
}.

(** Field updates. *)
Definition with_state (st : State) (s : Slider) : Slider :=
  mkSlider (props s) st (thumb_current s) (minThumb_current s)
    (activeThumbRef s) (minTrackStyles_width s) (minTrackStyles_left s)
    (_x s) (_x_min s) (lastDx s) (initialValue s) (minInitialValue s)
    (lastValue s) (lastMinValue s) (thumbStyles_left s)
    (minThumbStyles_left s) (initialThumbSize s) (containerSize s)
    (trackSize s) (thumbSize s) (shouldForceLTR s) (trace s).

Definition with_props (p : SliderProps) (s : Slider) : Slider :=
  mkSlider p (state s) (thumb_current s) (minThumb_current s)
    (activeThumbRef s) (minTrackStyles_width s) (minTrackStyles_left s)
    (_x s) (_x_min s) (lastDx s) (initialValue s) (minInitialValue s)
    (lastValue s) (lastMinValue s) (thumbStyles_left s)
    (minThumbStyles_left s) (initialThumbSize s) (containerSize s)
    (trackSize s) (thumbSize s) (shouldForceLTR s) (trace s).

Definition with_refs (t m : bool) (s : Slider) : Slider :=
  mkSlider (props s) (state s) t m
    (activeThumbRef s) (minTrackStyles_width s) (minTrackStyles_left s)
    (_x s) (_x_min s) (lastDx s) (initialValue s) (minInitialValue s)
    (lastValue s) (lastMinValue s) (thumbStyles_left s)
    (minThumbStyles_left s) (initialThumbSize s) (containerSize s)
    (trackSize s) (thumbSize s) (shouldForceLTR s) (trace s).

Definition with_activeThumbRef (r : ThumbRef) (s : Slider) : Slider :=
  mkSlider (props s) (state s) (thumb_current s) (minThumb_current s)
    r (minTrackStyles_width s) (minTrackStyles_left s)
    (_x s) (_x_min s) (lastDx s) (initialValue s) (minInitialValue s)
    (lastValue s) (lastMinValue s) (thumbStyles_left s)
    (minThumbStyles_left s) (initialThumbSize s) (containerSize s)
    (trackSize s) (thumbSize s) (shouldForceLTR s) (trace s).

Definition with_minTrackStyles_width (w : option number) (s : Slider) : Slider :=
  mkSlider (props s) (state s) (thumb_current s) (minThumb_current s)
    (activeThumbRef s) w (minTrackStyles_left s)
    (_x s) (_x_min s) (lastDx s) (initialValue s) (minInitialValue s)
    (lastValue s) (lastMinValue s) (thumbStyles_left s)
    (minThumbStyles_left s) (initialThumbSize s) (containerSize s)
    (trackSize s) (thumbSize s) (shouldForceLTR s) (trace s).

Definition with_minTrackStyles_left (l : option number) (s : Slider) : Slider :=
  mkSlider (props s) (state s) (thumb_current s) (minThumb_current s)
    (activeThumbRef s) (minTrackStyles_width s) l
    (_x s) (_x_min s) (lastDx s) (initialValue s) (minInitialValue s)
    (lastValue s) (lastMinValue s) (thumbStyles_left s)
    (minThumbStyles_left s) (initialThumbSize s) (containerSize s)
    (trackSize s) (thumbSize s) (shouldForceLTR s) (trace s).

Definition with_x (x : number) (s : Slider) : Slider :=
  mkSlider (props s) (state s) (thumb_current s) (minThumb_current s)
    (activeThumbRef s) (minTrackStyles_width s) (minTrackStyles_left s)
    x (_x_min s) (lastDx s) (initialValue s) (minInitialValue s)
    (lastValue s) (lastMinValue s) (thumbStyles_left s)
    (minThumbStyles_left s) (initialThumbSize s) (containerSize s)
    (trackSize s) (thumbSize s) (shouldForceLTR s) (trace s).

Definition with_x_min (x : number) (s : Slider) : Slider :=
  mkSlider (props s) (state s) (thumb_current s) (minThumb_current s)
    (activeThumbRef s) (minTrackStyles_width s) (minTrackStyles_left s)
    (_x s) x (lastDx s) (initialValue s) (minInitialValue s)
    (lastValue s) (lastMinValue s) (thumbStyles_left s)
    (minThumbStyles_left s) (initialThumbSize s) (containerSize s)
    (trackSize s) (thumbSize s) (shouldForceLTR s) (trace s).

Definition with_lastDx (d : number) (s : Slider) : Slider :=
  mkSlider (props s) (state s) (thumb_current s) (minThumb_current s)
    (activeThumbRef s) (minTrackStyles_width s) (minTrackStyles_left s)
    (_x s) (_x_min s) d (initialValue s) (minInitialValue s)
    (lastValue s) (lastMinValue s) (thumbStyles_left s)
    (minThumbStyles_left s) (initialThumbSize s) (containerSize s)
    (trackSize s) (thumbSize s) (shouldForceLTR s) (trace s).

Definition with_initialValue (v : number) (s : Slider) : Slider :=
  mkSlider (props s) (state s) (thumb_current s) (minThumb_current s)
    (activeThumbRef s) (minTrackStyles_width s) (minTrackStyles_left s)
    (_x s) (_x_min s) (lastDx s) v (minInitialValue s)
    (lastValue s) (lastMinValue s) (thumbStyles_left s)
    (minThumbStyles_left s) (initialThumbSize s) (containerSize s)
    (trackSize s) (thumbSize s) (shouldForceLTR s) (trace s).

Definition with_minInitialValue (v : number) (s : Slider) : Slider :=
  mkSlider (props s) (state s) (thumb_current s) (minThumb_current s)
    (activeThumbRef s) (minTrackStyles_width s) (minTrackStyles_left s)
    (_x s) (_x_min s) (lastDx s) (initialValue s) v
    (lastValue s) (lastMinValue s) (thumbStyles_left s)
    (minThumbStyles_left s) (initialThumbSize s) (containerSize s)
    (trackSize s) (thumbSize s) (shouldForceLTR s) (trace s).

Definition with_lastValue (v : number) (s : Slider) : Slider :=
  mkSlider (props s) (state s) (thumb_current s) (minThumb_current s)
    (activeThumbRef s) (minTrackStyles_width s) (minTrackStyles_left s)
    (_x s) (_x_min s) (lastDx s) (initialValue s) (minInitialValue s)
    v (lastMinValue s) (thumbStyles_left s)
    (minThumbStyles_left s) (initialThumbSize s) (containerSize s)
    (trackSize s) (thumbSize s) (shouldForceLTR s) (trace s).

Definition with_lastMinValue (v : number) (s : Slider) : Slider :=
  mkSlider (props s) (state s) (thumb_current s) (minThumb_current s)
    (activeThumbRef s) (minTrackStyles_width s) (minTrackStyles_left s)
    (_x s) (_x_min s) (lastDx s) (initialValue s) (minInitialValue s)
    (lastValue s) v (thumbStyles_left s)
    (minThumbStyles_left s) (initialThumbSize s) (containerSize s)
    (trackSize s) (thumbSize s) (shouldForceLTR s) (trace s).

Definition with_thumbStyles_left (l : option number) (s : Slider) : Slider :=
  mkSlider (props s) (state s) (thumb_current s) (minThumb_current s)
    (activeThumbRef s) (minTrackStyles_width s) (minTrackStyles_left s)
    (_x s) (_x_min s) (lastDx s) (initialValue s) (minInitialValue s)
    (lastValue s) (lastMinValue s) l
    (minThumbStyles_left s) (initialThumbSize s) (containerSize s)
    (trackSize s) (thumbSize s) (shouldForceLTR s) (trace s).

Definition with_minThumbStyles_left (l : option number) (s : Slider) : Slider :=
  mkSlider (props s) (state s) (thumb_current s) (minThumb_current s)
    (activeThumbRef s) (minTrackStyles_width s) (minTrackStyles_left s)
    (_x s) (_x_min s) (lastDx s) (initialValue s) (minInitialValue s)
    (lastValue s) (lastMinValue s) (thumbStyles_left s)
    l (initialThumbSize s) (containerSize s)
    (trackSize s) (thumbSize s) (shouldForceLTR s) (trace s).

Definition with_initialThumbSize (m : Measurements) (s : Slider) : Slider :=
  mkSlider (props s) (state s) (thumb_current s) (minThumb_current s)
    (activeThumbRef s) (minTrackStyles_width s) (minTrackStyles_left s)
    (_x s) (_x_min s) (lastDx s) (initialValue s) (minInitialValue s)
    (lastValue s) (lastMinValue s) (thumbStyles_left s)
    (minThumbStyles_left s) m (containerSize s)
    (trackSize s) (thumbSize s) (shouldForceLTR s) (trace s).

Definition with_sizes (c t h : option Measurements) (s : Slider) : Slider :=
  mkSlider (props s) (state s) (thumb_current s) (minThumb_current s)
    (activeThumbRef s) (minTrackStyles_width s) (minTrackStyles_left s)
    (_x s) (_x_min s) (lastDx s) (initialValue s) (minInitialValue s)
    (lastValue s) (lastMinValue s) (thumbStyles_left s)
    (minThumbStyles_left s) (initialThumbSize s) c t h
    (shouldForceLTR s) (trace s).

Definition call (c : Call) (s : Slider) : Slider :=
  mkSlider (props s) (state s) (thumb_current s) (minThumb_current s)
    (activeThumbRef s) (minTrackStyles_width s) (minTrackStyles_left s)
    (_x s) (_x_min s) (lastDx s) (initialValue s) (minInitialValue s)
    (lastValue s) (lastMinValue s) (thumbStyles_left s)
    (minThumbStyles_left s) (initialThumbSize s) (containerSize s)
    (trackSize s) (thumbSize s) (shouldForceLTR s) (trace s ++ [c]).

(** ** Values *)

(** The [disableRTL] getter: a range slider never forces LTR. *)
Definition disableRTL (p : SliderProps) : bool :=
  if useRange p then false else disableRTL_prop p.

Definition isDefaultThumbActive (s : Slider) : bool :=
  ThumbRef_eqb (activeThumbRef s) thumb.

Definition getValueInRange (p : SliderProps) (v : number) : number :=
  if lt v (minimumValue p) then minimumValue p
  else if gt v (maximumValue p) then maximumValue p
  else v.

Definition getRoundedValue (p : SliderProps) (v0 : number) : number :=
  let v := getValueInRange p v0 in
  if gt (step p) (num 0) then mul (round (div v (step p))) (step p) else v.

Definition getRange (p : SliderProps) : number :=
  sub (maximumValue p) (minimumValue p).

Definition getXForValue (s : Slider) (v0 : number) : number :=
  let p := props s in
  let range := getRange p in
  let relativeValue := sub (minimumValue p) v0 in
  let v := if lt (minimumValue p) (num 0)
           then abs relativeValue
           else sub v0 (minimumValue p) in
  let ratio := div v range in
  mul ratio (width (st_trackSize (state s))).

Definition getValueForX (s : Slider) (x : number) : number :=
  let p := props s in
  let ratio :=
    div x (sub (width (st_trackSize (state s)))
               (div (width (initialThumbSize s)) (num 2))) in
  let range := getRange p in
  if truthy (step p) then
    max (minimumValue p)
      (min (maximumValue p)
         (add (minimumValue p)
            (mul (round (div (mul ratio range) (step p))) (step p))))
  else
    max (minimumValue p)
      (min (maximumValue p) (add (mul ratio range) (minimumValue p))).

(** ** Actions *)

Definition setActiveThumb (r : ThumbRef) (s : Slider) : Slider :=
  with_activeThumbRef r s.

Definition get_x (s : Slider) : number :=
  if isDefaultThumbActive s then _x s else _x_min s.

Definition set_x (x : number) (s : Slider) : Slider :=
  if isDefaultThumbActive s then with_x x s else with_x_min x s.

(** ** Events *)

Definition onValueChange (v : number) (s : Slider) : Slider :=
  call (onValueChange_call v) (with_lastValue v s).

Definition onRangeChange (v : number) (s : Slider) : Slider :=
  let s1 := if isDefaultThumbActive s
            then with_lastValue v s else with_lastMinValue v s in
  let p := props s1 in
  if isRTL p && disableRTL_prop p then
    call (onRangeChange_call (sub (maximumValue p) (lastValue s1))
                             (sub (maximumValue p) (lastMinValue s1))) s1
  else
    call (onRangeChange_call (lastMinValue s1) (lastValue s1)) s1.

Definition onSeekStart (s : Slider) : Slider := call onSeekStart_call s.

Definition onSeekEnd (s : Slider) : Slider := call onSeekEnd_call s.

Definition updateValue (x : number) (s : Slider) : Slider :=
  let v := getValueForX s x in
  if useRange (props s) then onRangeChange v s else onValueChange v s.

(** The left edge both [moveTo] and [moveMinTo] compute from an offset
    already adjusted for RTL. *)
Definition leftFor (s : Slider) (x' : number) : number :=
  let w := width (st_trackSize (state s)) in
  let nonOverlappingTrackWidth := sub w (width (initialThumbSize s)) in
  if seq w (num 0) then x'
  else div (mul x' nonOverlappingTrackWidth) w.

Definition moveMinTo (x : number) (s : Slider) : Slider :=
  let w := width (st_trackSize (state s)) in
  if minThumb_current s then
    let nonOverlappingTrackWidth := sub w (width (initialThumbSize s)) in
    let x' := if shouldForceLTR s then sub nonOverlappingTrackWidth x else x in
    let left := leftFor s x' in
    let maxThumbPosition := toNumber (thumbStyles_left s) in
    if le left maxThumbPosition then
      let s1 := with_minThumbStyles_left (Some left) s in
      let s2 := with_minTrackStyles_width (Some (sub maxThumbPosition x)) s1 in
      let s3 := with_minTrackStyles_left (Some x) s2 in
      updateValue x s3
    else s
  else s.

Definition moveTo (x : number) (s : Slider) : Slider :=
  if isDefaultThumbActive s then
    if thumb_current s then
      let w := width (st_trackSize (state s)) in
      let x' := if shouldForceLTR s then sub w x else x in
      let left := leftFor s x' in
      if useRange (props s) then
        let minThumbPosition := toNumber (minThumbStyles_left s) in
        if ge left minThumbPosition then
          let s1 := with_thumbStyles_left (Some left) s in
          let s2 :=
            with_minTrackStyles_width (Some (sub left minThumbPosition)) s1 in
          updateValue x s2
        else s
      else
        let s1 := with_thumbStyles_left (Some left) s in
        with_minTrackStyles_width (Some (min w x)) s1
    else s
  else moveMinTo x s.

Definition update (dx : number) (s : Slider) : Slider :=
  let x := get_x s in
  let x := add x dx in
  let x := max (min x (width (st_trackSize (state s)))) (num 0) in
  let s1 := set_x x s in
  let s2 := moveTo x s1 in
  if negb (useRange (props s2)) then updateValue x s2 else s2.

Definition bounceToStep (s : Slider) : Slider :=
  if gt (step (props s)) (num 0) then
    let v := getValueForX s (get_x s) in
    let roundedValue := getRoundedValue (props s) v in
    let x := getXForValue s roundedValue in
    moveTo x (set_x x s)
  else s.

Definition reset (s : Slider) : Slider :=
  let s := with_lastValue (initialValue s) s in
  let s := with_lastMinValue (minInitialValue s) s in
  let s := with_lastDx (num 0) s in
  let s := setActiveThumb thumb s in
  let s := set_x (getXForValue s (initialValue s)) s in
  let s := update (num 0) s in
  let s := setActiveThumb minThumb s in
  let s := set_x (getXForValue s (minInitialValue s)) s in
  update (num 0) s.

(** ** Gesture recognizer *)

Definition handlePanResponderGrant (s : Slider) : Slider :=
  onSeekStart (with_lastDx (num 0) s).

(** [gesture_dx] is [gestureState.dx], the distance accumulated since the
    touch started. *)
Definition handlePanResponderMove (gesture_dx : number) (s : Slider) : Slider :=
  if disabled (props s) then s
  else
    let dx := mul gesture_dx
                (if isRTL (props s) && negb (disableRTL (props s))
                 then num (-1) else num 1) in
    let s1 := update (sub dx (lastDx s)) s in
    with_lastDx dx s1.

Definition handlePanResponderEnd (s : Slider) : Slider :=
  onSeekEnd (bounceToStep s).

(** [locationX] is [nativeEvent.locationX]. *)
Definition updateTrackStepAndStyle (locationX : number) (s : Slider) : Slider :=
  let p := props s in
  let w := width (st_trackSize (state s)) in
  let newX := if isRTL p && negb (disableRTL p) then sub w locationX
              else locationX in
  let s1 :=
    if useRange p then
      if isDefaultThumbActive s && truthy_opt (minThumbStyles_left s)
         && lt newX (toNumber (minThumbStyles_left s))
      then setActiveThumb minThumb s
      else if negb (isDefaultThumbActive s) && truthy_opt (thumbStyles_left s)
              && gt newX (toNumber (thumbStyles_left s))
      then setActiveThumb thumb s
      else s
    else s in
  let s2 := set_x newX s1 in
  let s3 := if negb (useRange p) then updateValue (get_x s2) s2 else s2 in
  if gt (step p) (num 0) then bounceToStep s3 else moveTo (get_x s3) s3.

Definition handleTrackPress (locationX : number) (s : Slider) : Slider :=
  if disabled (props s) then s
  else onSeekEnd (updateTrackStepAndStyle locationX (onSeekStart s)).

Definition onMinTouchStart (s : Slider) : Slider := setActiveThumb minThumb s.

Definition onTouchStart (s : Slider) : Slider := setActiveThumb thumb s.

(** ** Lifecycle and measurement

    [setState] is applied at once and followed by [componentDidUpdate]; as
    the component is a [PureComponent], an update that leaves the state as it
    was does not reach [componentDidUpdate]. *)

Definition componentDidUpdate (prevProps : SliderProps) (prevState : State)
    (s : Slider) : Slider :=
  let s1 :=
    if negb (useRange (props s)) && sne (value prevProps) (value (props s)) then
      let s' := with_initialValue (getRoundedValue (props s) (value (props s))) s in
      let s' := with_x (getXForValue s' (initialValue s')) s' in
      moveTo (_x s') s'
    else s in
  if negb (Bool.eqb (measureCompleted prevState) (measureCompleted (state s1))) then
    let s' := with_initialThumbSize (st_thumbSize (state s1)) s1 in
    let s' := with_x (getXForValue s' (initialValue s')) s' in
    let s' := with_x_min (getXForValue s' (minInitialValue s')) s' in
    moveTo (_x s') s'
  else s1.

Definition setState_measureCompleted (b : bool) (s : Slider) : Slider :=
  let st := state s in
  if Bool.eqb (measureCompleted st) b then s
  else
    componentDidUpdate (props s) st
      (with_state (mkState (st_containerSize st) (st_trackSize st)
                     (st_thumbSize st) b) s).

Definition setState_sizes (c t h : Measurements) (s : Slider) : Slider :=
  let st := state s in
  componentDidUpdate (props s) st
    (with_state (mkState c t h (measureCompleted st)) s).

Definition onOrientationChanged (s : Slider) : Slider :=
  let s := with_initialValue (lastValue s) s in
  let s := with_minInitialValue (lastMinValue s) s in
  setState_measureCompleted false s.

Inductive MeasuredVariableName : Type :=
| name_containerSize
| name_trackSize
| name_thumbSize.

Definition measured (name : MeasuredVariableName) (s : Slider)
  : option Measurements :=
  match name with
  | name_containerSize => containerSize s
  | name_trackSize => trackSize s
  | name_thumbSize => thumbSize s
  end.

Definition set_measured (name : MeasuredVariableName) (m : Measurements)
    (s : Slider) : Slider :=
  match name with
  | name_containerSize => with_sizes (Some m) (trackSize s) (thumbSize s) s
  | name_trackSize => with_sizes (containerSize s) (Some m) (thumbSize s) s
  | name_thumbSize => with_sizes (containerSize s) (trackSize s) (Some m) s
  end.

Definition handleMeasure (name : MeasuredVariableName) (layout : Measurements)
    (s : Slider) : Slider :=
  let size := mkMeasurements (width layout) (height layout) in
  let unchanged :=
    match measured name s with
    | Some currentSize =>
        seq (width layout) (width currentSize)
        && seq (height layout) (height currentSize)
    | None => false
    end in
  if unchanged then s
  else
    let s1 := set_measured name size s in
    match containerSize s1, thumbSize s1, trackSize s1 with
    | Some c, Some h, Some t =>
        setState_measureCompleted true (setState_sizes c t h s1)
    | _, _, _ => s1
    end.

Definition onContainerLayout (layout : Measurements) (s : Slider) : Slider :=
  handleMeasure name_containerSize layout s.

Definition onTrackLayout (layout : Measurements) (s : Slider) : Slider :=
  handleMeasure name_trackSize layout (setState_measureCompleted false s).

Definition onThumbLayout (layout : Measurements) (s : Slider) : Slider :=
  handleMeasure name_thumbSize layout s.

(** ** Accessibility *)

Inductive ActionName : Type := increment | decrement | other_action.

(** The local [newValue] of [onAccessibilityAction]. *)
Definition accessibilityNewValue (s : Slider) (a : ActionName) : number :=
  let p := props s in
  let v := getValueForX s (_x s) in
  match a with
  | increment => if sne v (maximumValue p) then add v (step p) else v
  | decrement => if sne v (minimumValue p) then sub v (step p) else v
  | other_action => v
  end.

Definition onAccessibilityAction (a : ActionName) (s : Slider) : Slider :=
  let newValue := accessibilityNewValue s a in
  let s1 := with_x (getXForValue s newValue) s in
  let s2 := updateValue (_x s1) s1 in
  let s3 := moveTo (_x s2) s2 in
  call (announceForAccessibility newValue) s3.

(** ** Construction *)

Definition checkProps (p : SliderProps) : list Call :=
  (if ge (minimumValue p) (maximumValue p) then [warn_min_not_lower] else [])
  ++ (if lt (value p) (minimumValue p) || gt (value p) (maximumValue p)
      then [warn_value_not_in_range] else []).

Definition zeroSize : Measurements := mkMeasurements (num 0) (num 0).

(** The instance after the field initialisers and the constructor have run;
    no view is mounted yet. *)
Definition constructor (p : SliderProps) : Slider :=
  let initial :=
    getRoundedValue p (if useRange p then initialMaximumValue p else value p) in
  let minInitial := getRoundedValue p (initialMinimumValue p) in
  {| props := p;
     state := mkState zeroSize zeroSize zeroSize false;
     thumb_current := false;
     minThumb_current := false;
     activeThumbRef := thumb;
     minTrackStyles_width := None;
     minTrackStyles_left := None;
     _x := num 0;
     _x_min := num 0;
     lastDx := num 0;
     initialValue := initial;
     minInitialValue := minInitial;
     lastValue := initial;
     lastMinValue := minInitial;
     thumbStyles_left := None;
     minThumbStyles_left := Some (num 0);
     initialThumbSize := mkMeasurements THUMB_SIZE THUMB_SIZE;
     containerSize := None;
     trackSize := None;
     thumbSize := None;
     shouldForceLTR := isRTL p && disableRTL p;
     trace := checkProps p |}.

(** The first render attaches the refs: the primary thumb always, the
    minimum thumb only on a range slider. *)
Definition mounted (s : Slider) : Slider :=
  with_refs true (useRange (props s)) s.

(** ** What can happen to a mounted slider *)

Inductive Event : Type :=
| ContainerLayout (layout : Measurements)
| TrackLayout (layout : Measurements)
| ThumbLayout (layout : Measurements)
| OrientationChanged
| TouchStart
| MinTouchStart
| PanResponderGrant
| PanResponderMove (gesture_dx : number)
| PanResponderRelease
| TrackPress (locationX : number)
| AccessibilityAction (a : ActionName)
| Reset
| ValueProp (v : number).

(** A new [value] prop: the props are replaced and [componentDidUpdate]
    sees the previous ones. *)
Definition receiveValue (v : number) (s : Slider) : Slider :=
  let p := props s in
  let p' := mkProps v (initialMinimumValue p) (initialMaximumValue p)
              (minimumValue p) (maximumValue p) (step p) (disabled p)
              (useRange p) (disableRTL_prop p) (isRTL p) in
  componentDidUpdate p (state s) (with_props p' s).

Definition handle (e : Event) (s : Slider) : Slider :=
  match e with
  | ContainerLayout l => onContainerLayout l s
  | TrackLayout l => onTrackLayout l s
  | ThumbLayout l => onThumbLayout l s
  | OrientationChanged => onOrientationChanged s
  | TouchStart => onTouchStart s
  | MinTouchStart => onMinTouchStart s
  | PanResponderGrant => handlePanResponderGrant s
  | PanResponderMove dx => handlePanResponderMove dx s
  | PanResponderRelease => handlePanResponderEnd s
  | TrackPress x => handleTrackPress x s
  | AccessibilityAction a => onAccessibilityAction a s
  | Reset => reset s
  | ValueProp v => receiveValue v s
  end.

Definition run (es : list Event) (s : Slider) : Slider :=
  fold_left (fun acc e => handle e acc) es s.

(** * Vocabulary of the statements *)

(** The length [getValueForX] divides by: the track width less half the
    initial thumb width. *)
Definition reach (w t : Q) : Q := w - t / 2.


(** A slider with props [p] after its first render and the three layout
    callbacks, for a track [w] wide and a square thumb of side [t]. *)
Definition firstLayout (w t : Q) : list Event :=
  [ ContainerLayout (mkMeasurements (Fin w) (num 28));
    TrackLayout (mkMeasurements (Fin w) (num 6));
    ThumbLayout (mkMeasurements (Fin t) (Fin t)) ].

Definition measuredSlider (p : SliderProps) (w t : Q) : Slider :=
  run (firstLayout w t) (mounted (constructor p)).

(** Props of a slider over [mn .. mx] with step [st], everything else as in
    [defaultProps]. *)
Definition sliderProps (mn mx st : Q) (range : bool) : SliderProps :=
  mkProps (value defaultProps) (initialMinimumValue defaultProps)
    (initialMaximumValue defaultProps) (Fin mn) (Fin mx) (Fin st)
    false range false false.

(** The offset the component gives a value: [getRoundedValue] followed by
    [getXForValue], as [componentDidUpdate] and [bounceToStep] do. *)
Definition valueToOffset (s : Slider) (v : number) : number :=
  getXForValue s (getRoundedValue (props s) v).

(** A value taken to its offset and back. *)
Definition roundTrip (s : Slider) (v : number) : number :=
  getValueForX s (valueToOffset s v).

(** Two values are in the same step bucket when [getRoundedValue] sends them
    to the same stepped value. *)
Definition sameStepBucket (p : SliderProps) (a b : number) : bool :=
  seq (getRoundedValue p a) (getRoundedValue p b).

(** [q] is an integer multiple of [st]. *)
Definition multipleOf (st q : Q) : Prop := exists n : Z, q == inject_Z n * st.

(** The sliders of the examples: values [0 .. 100] in steps of ten on a
    track of 100 with the default thumb of 24; the same on a track of 12,
    half the thumb; a track of 1000; a slider whose range is the single
    value 5; values [0 .. 95] in steps of ten; the default values [0 .. 1]
    without a step. *)
Definition steppedSlider : Slider :=
  measuredSlider (sliderProps 0 100 10 false) 100 24.


Definition wideSlider : Slider :=
  measuredSlider (sliderProps 0 100 10 false) 1000 24.



Definition continuousSlider : Slider :=
  measuredSlider (sliderProps 0 1 0 false) 100 24.

(** Values [5 .. 25] in steps of ten, which start off the multiples of the
    step, on a track of 1000 under the default thumb. *)
Definition offsetSlider : Slider :=
  measuredSlider (sliderProps 5 25 10 false) 1000 24.

(** The rendered thumbs do not cross: the left edge of the primary thumb,
    once it has been assigned, is at or after the left edge of the minimum
    thumb. *)
Definition thumbsOrdered (s : Slider) : bool :=
  match thumbStyles_left s, minThumbStyles_left s with
  | None, _ => true
  | Some a, Some b => le b a
  | Some _, None => false
  end.

(** The slider is a range slider whose rendered thumbs do not cross. *)
Definition rangeInvariant (s : Slider) : Prop :=
  useRange (props s) = true /\ thumbsOrdered s = true.

(** The offset [update] hands to [set_x] and [moveTo]. *)
Definition updatedOffset (dx : number) (s : Slider) : number :=
  max (min (add (get_x s) dx) (width (st_trackSize (state s)))) (num 0).

(** The guard under which [moveTo] and [moveMinTo] move the active thumb of
    a range slider to the offset [x]. *)
Definition moveAccepted (x : number) (s : Slider) : bool :=
  let w := width (st_trackSize (state s)) in
  if isDefaultThumbActive s then
    thumb_current s
    && ge (leftFor s (if shouldForceLTR s then sub w x else x))
          (toNumber (minThumbStyles_left s))
  else
    minThumb_current s
    && le (leftFor s (if shouldForceLTR s
                      then sub (sub w (width (initialThumbSize s))) x else x))
          (toNumber (thumbStyles_left s)).

(** A range slider [0 .. 100] without a step on a track of 100 under the
    default thumb; its thumbs start at the values 0 and 1. *)
Definition rangeSlider : Slider :=
  measuredSlider (sliderProps 0 100 0 true) 100 24.

(** A single-value slider that has committed the value [v] and the minimum
    value [m] and has made the calls [t]; its minimum thumb is not
    rendered. *)
Definition committed (v m : number) (t : list Call) (s : Slider) : Prop :=
  useRange (props s) = false
  /\ minThumb_current s = false
  /\ lastValue s = v
  /\ lastMinValue s = m
  /\ trace s = t.

(** The events of measurement: layout callbacks and orientation changes. *)
Definition isMeasurement (e : Event) : bool :=
  match e with
  | ContainerLayout _ | TrackLayout _ | ThumbLayout _ | OrientationChanged => true
  | _ => false
  end.

(** The stepped slider dragged by 23 and by 44, the wide slider dragged by
    230, the continuous slider dragged by 44: the drags are still held. *)
Definition heldAt (dx : Q) (s : Slider) : Slider :=
  run [PanResponderGrant; PanResponderMove (Fin dx)] s.

(** What [moveTo] and [updateValue] never touch: everything but the styles,
    the last committed values and the trace. *)
Definition sameCore (s s' : Slider) : Prop :=
  props s' = props s
  /\ state s' = state s
  /\ activeThumbRef s' = activeThumbRef s
  /\ _x s' = _x s
  /\ _x_min s' = _x_min s
  /\ lastDx s' = lastDx s
  /\ initialValue s' = initialValue s
  /\ minInitialValue s' = minInitialValue s
  /\ initialThumbSize s' = initialThumbSize s
  /\ thumb_current s' = thumb_current s
  /\ minThumb_current s' = minThumb_current s
  /\ shouldForceLTR s' = shouldForceLTR s.

(** The trace of [s'] is the trace of [s] and what was called since. *)
Definition extends (s s' : Slider) : Prop :=
  exists l, trace s' = trace s ++ l.

(** What a gesture, a press or an accessibility action never touches: the
    props, the React state, the measured sizes and the refs. *)
Definition sameSetting (s s' : Slider) : Prop :=
  props s' = props s
  /\ state s' = state s
  /\ initialThumbSize s' = initialThumbSize s
  /\ thumb_current s' = thumb_current s
  /\ minThumb_current s' = minThumb_current s
  /\ shouldForceLTR s' = shouldForceLTR s
  /\ initialValue s' = initialValue s
  /\ minInitialValue s' = minInitialValue s
  /\ containerSize s' = containerSize s
  /\ trackSize s' = trackSize s
  /\ thumbSize s' = thumbSize s.

(** The gesture moves with the accumulated distances [ds], in order. *)
Definition moves (ds : list Q) : list Event :=
  map (fun d => PanResponderMove (Fin d)) ds.

(** The value last passed to [onValueChange] in a trace, [d] if there is
    none. *)
Fixpoint lastReported (t : list Call) (d : number) : number :=
  match t with
  | [] => d
  | onValueChange_call v :: t' => lastReported t' v
  | _ :: t' => lastReported t' d
  end.

(** The layout callback of a measured variable. *)
Definition layoutEvent (name : MeasuredVariableName) (l : Measurements) : Event :=
  match name with
  | name_containerSize => ContainerLayout l
  | name_trackSize => TrackLayout l
  | name_thumbSize => ThumbLayout l
  end.

(** A single-value slider whose committed value is the value it last passed
    to [onValueChange], or [d] if it has passed none. *)
Definition reportsCommitted (d : number) (s : Slider) : Prop :=
  useRange (props s) = false /\ lastValue s = lastReported (trace s) d.

(** Where [update(0)] leaves an offset [x]: on the track. *)
Definition resting (s : Slider) (x : number) : number :=
  max (min (add x (num 0)) (width (st_trackSize (state s)))) (num 0).

(** The primary offset is the offset of the initial value, and the minimum
    offset that of the initial minimum value, in the present geometry. *)
Definition atInitialValues (s : Slider) : Prop :=
  _x s = getXForValue s (initialValue s)
  /\ _x_min s = getXForValue s (minInitialValue s).

(** The pair a range slider passes to [onRangeChange] for the committed
    minimum [lo] and maximum [hi]: mirrored in a right-to-left layout with
    the [disableRTL] prop set. *)
Definition reportedRange (p : SliderProps) (lo hi : number) : Call :=
  if isRTL p && disableRTL_prop p
  then onRangeChange_call (sub (maximumValue p) hi) (sub (maximumValue p) lo)
  else onRangeChange_call lo hi.

(** Closed statements about concrete sliders are decided by evaluation. *)
Ltac split_conj :=
  repeat match goal with |- _ /\ _ => split end.

Ltac by_evaluation :=
  split_conj; try (vm_compute; reflexivity).

(** * Facts about numbers *)

Section NumberFacts.

Lemma lt_Fin (p q : Q) : lt (Fin p) (Fin q) = true <-> p < q.
Proof.
  simpl. destruct (Qcompare_spec p q) as [E | L | G]; split; intro H;
    try reflexivity; try discriminate; try assumption; lra.
Qed.

Lemma lt_Fin_false (p q : Q) : lt (Fin p) (Fin q) = false <-> q <= p.
Proof.
  simpl. destruct (Qcompare_spec p q) as [E | L | G]; split; intro H;
    try reflexivity; try discriminate; lra.
Qed.


Lemma seq_Fin (p q : Q) : seq (Fin p) (Fin q) = true <-> p == q.
Proof. simpl. apply Qeq_bool_iff. Qed.

Lemma seq_Fin_false (p q : Q) : seq (Fin p) (Fin q) = false <-> ~ p == q.
Proof.
  simpl. split; intro H.
  - intro E. apply Qeq_bool_iff in E. congruence.
  - destruct (Qeq_bool p q) eqn:B; [ | reflexivity ].
    apply Qeq_bool_iff in B. contradiction.
Qed.

Lemma div_Fin (p q : Q) : ~ q == 0 -> div (Fin p) (Fin q) = Fin (p / q).
Proof.
  intro N. simpl. unfold sgn.
  destruct (Qcompare_spec q 0); [ contradiction | reflexivity | reflexivity ].
Qed.

Lemma div_Fin_zero (p q : Q) :
  q == 0 -> div (Fin p) (Fin q) = inf_signed (sgn p).
Proof.
  intro Z. simpl. unfold sgn at 1.
  destruct (Qcompare_spec q 0); [ reflexivity | lra | lra ].
Qed.

Lemma truthy_Fin (q : Q) : truthy (Fin q) = true <-> ~ q == 0.
Proof.
  simpl. split; intro H.
  - intro E. apply Qeq_bool_iff in E. rewrite E in H. discriminate.
  - destruct (Qeq_bool q 0) eqn:B; [ | reflexivity ].
    apply Qeq_bool_iff in B. contradiction.
Qed.


(** [Math.max] and [Math.min] of finite values are finite, and are the
    expected bound. *)
Lemma max_Fin (p q : Q) :
  exists r, max (Fin p) (Fin q) = Fin r /\ p <= r /\ q <= r /\ (r == p \/ r == q).
Proof.
  unfold max. destruct (lt (Fin p) (Fin q)) eqn:L.
  - apply lt_Fin in L. exists q. repeat split; lra.
  - apply lt_Fin_false in L. exists p. repeat split; lra.
Qed.

Lemma min_Fin (p q : Q) :
  exists r, min (Fin p) (Fin q) = Fin r /\ r <= p /\ r <= q /\ (r == p \/ r == q).
Proof.
  unfold min. destruct (lt (Fin q) (Fin p)) eqn:L.
  - apply lt_Fin in L. exists q. repeat split; lra.
  - apply lt_Fin_false in L. exists p. repeat split; lra.
Qed.

(** Clamping a finite value between finite bounds, as [getValueForX] does
    with [Math.max(lo, Math.min(hi, v))]. *)
Lemma clamp_Fin (lo hi v : Q) :
  lo <= hi ->
  exists r, max (Fin lo) (min (Fin hi) (Fin v)) = Fin r
            /\ lo <= r <= hi
            /\ (v <= lo -> r == lo)
            /\ (hi <= v -> r == hi)
            /\ (lo <= v <= hi -> r == v).
Proof.
  intro B.
  destruct (min_Fin hi v) as [m [Em [M1 [M2 M3]]]].
  destruct (max_Fin lo m) as [r [Er [R1 [R2 R3]]]].
  exists r. rewrite Em, Er. split; [ reflexivity | ].
  repeat split; intros; destruct M3, R3; lra.
Qed.


Lemma roundQ_mono (p q : Q) : p <= q -> roundQ p <= roundQ q.
Proof.
  intro L. unfold roundQ. rewrite <- Zle_Qle.
  apply Qfloor_resp_le. lra.
Qed.

Lemma roundQ_inject_Z (n : Z) : roundQ (inject_Z n) == inject_Z n.
Proof.
  unfold roundQ.
  assert (H : Qfloor (inject_Z n + (1 # 2)) = n).
  { assert (U := Qfloor_le (inject_Z n + (1 # 2))).
    assert (V := Qlt_floor (inject_Z n + (1 # 2))).
    set (f := Qfloor (inject_Z n + (1 # 2))) in *.
    assert (f <= n)%Z.
    { apply Z.lt_succ_r. rewrite Zlt_Qlt. unfold Z.succ.
      rewrite inject_Z_plus. change (inject_Z 1) with 1. lra. }
    assert (n <= f)%Z.
    { apply Z.lt_succ_r. rewrite Zlt_Qlt. unfold Z.succ.
      rewrite inject_Z_plus in *. change (inject_Z 1) with 1 in *. lra. }
    lia. }
  rewrite H. reflexivity.
Qed.


Lemma roundQ_compat (p q : Q) : p == q -> roundQ p == roundQ q.
Proof.
  intro E. unfold roundQ. rewrite E. reflexivity.
Qed.





End NumberFacts.

(** * The conversions on a finite configuration *)

Section FiniteConfiguration.

Variable s : Slider.
Variables mn mx st w t : Q.

Hypothesis Hmin : minimumValue (props s) = Fin mn.
Hypothesis Hmax : maximumValue (props s) = Fin mx.
Hypothesis Hstep : step (props s) = Fin st.
Hypothesis Hwidth : width (st_trackSize (state s)) = Fin w.
Hypothesis Hthumb : width (initialThumbSize s) = Fin t.

Lemma getRange_Fin : getRange (props s) = Fin (mx - mn).
Proof. unfold getRange. rewrite Hmin, Hmax. reflexivity. Qed.



Lemma ratio_Fin (x : Q) :
  ~ (reach w t) == 0 ->
  div (Fin x) (sub (width (st_trackSize (state s)))
                   (div (width (initialThumbSize s)) (num 2)))
  = Fin (x / (reach w t)).
Proof.
  intro N. rewrite Hwidth, Hthumb.
  change (div (Fin t) (num 2)) with (Fin (t / 2)).
  change (sub (Fin w) (Fin (t / 2))) with (Fin (reach w t)).
  apply div_Fin. exact N.
Qed.


Lemma getValueForX_stepped (x : Q) :
  ~ (reach w t) == 0 -> ~ st == 0 ->
  getValueForX s (Fin x)
  = max (Fin mn)
      (min (Fin mx) (Fin (mn + roundQ (x / (reach w t) * (mx - mn) / st) * st))).
Proof.
  intros N Z. unfold getValueForX.
  rewrite (ratio_Fin x N), getRange_Fin, Hstep, Hmin, Hmax.
  assert (T := Z). apply truthy_Fin in T. rewrite T.
  cbn [mul]. rewrite (div_Fin _ _ Z). reflexivity.
Qed.

(** With a zero (reach w t) the ratio is not finite: [0 / 0] is [NaN]. *)
Lemma getValueForX_zero_reach :
  (reach w t) == 0 -> getValueForX s (Fin 0) = NaN.
Proof.
  intro Z. unfold getValueForX. rewrite Hwidth, Hthumb.
  change (div (Fin t) (num 2)) with (Fin (t / 2)).
  change (sub (Fin w) (Fin (t / 2))) with (Fin (reach w t)).
  rewrite (div_Fin_zero 0 _ Z). cbn [sgn Qcompare inf_signed].
  rewrite getRange_Fin, Hstep, Hmin, Hmax.
  destruct (truthy (Fin st)); reflexivity.
Qed.

End FiniteConfiguration.

(** * Division and rounding on rationals *)

Lemma Qdiv_le_compat (a b c : Q) : 0 < c -> a <= b -> a / c <= b / c.
Proof.
  intros C L. unfold Qdiv. apply Qmult_le_compat_r; [ exact L | ].
  apply Qinv_le_0_compat. lra.
Qed.



(** * [getXForValue] on a finite configuration *)



(** The distance from the minimum that [getXForValue] takes, for a value at
    or above the minimum. *)
Lemma getXForValue_Fin (s : Slider) (mn mx w v : Q) :
  minimumValue (props s) = Fin mn ->
  maximumValue (props s) = Fin mx ->
  width (st_trackSize (state s)) = Fin w ->
  mn < mx -> mn <= v ->
  exists x, getXForValue s (Fin v) = Fin x /\ x == (v - mn) / (mx - mn) * w.
Proof.
  intros Hmin Hmax Hw R V. unfold getXForValue.
  rewrite (getRange_Fin s mn mx Hmin Hmax), Hmin, Hw.
  assert (N : ~ mx - mn == 0) by lra.
  destruct (lt (Fin mn) (num 0)).
  - cbn [sub neg add abs]. rewrite (div_Fin _ _ N). cbn [mul].
    eexists. split; [ reflexivity | ].
    assert (E : Qabs (mn + - v) == v - mn).
    { rewrite Qabs_neg by lra. ring. }
    rewrite E. reflexivity.
  - cbn [sub neg add]. rewrite (div_Fin _ _ N). cbn [mul].
    eexists. split; [ reflexivity | ]. reflexivity.
Qed.

(** [getValueInRange] on any number but [NaN]. *)
Lemma getValueInRange_clamps (p : SliderProps) (mn mx : Q) (v : number) :
  minimumValue p = Fin mn ->
  maximumValue p = Fin mx ->
  mn <= mx -> isNaN v = false ->
  exists c, getValueInRange p v = Fin c
            /\ mn <= c <= mx
            /\ (forall q, v = Fin q -> mn <= q <= mx -> c = q).
Proof.
  intros Hmin Hmax B N. unfold getValueInRange, gt. rewrite Hmin, Hmax.
  destruct v as [ | | q | ]; try discriminate.
  - exists mn. cbn. repeat split; try lra. intros q E; discriminate.
  - destruct (lt (Fin q) (Fin mn)) eqn:A.
    + apply lt_Fin in A. exists mn. repeat split; try lra.
      intros q' E I. injection E as <-. lra.
    + apply lt_Fin_false in A. destruct (lt (Fin mx) (Fin q)) eqn:C.
      * apply lt_Fin in C. exists mx. repeat split; try lra.
        intros q' E I. injection E as <-. lra.
      * apply lt_Fin_false in C. exists q. repeat split; try lra.
        intros q' E I. injection E as <-. reflexivity.
  - exists mx. cbn. repeat split; try lra. intros q E; discriminate.
Qed.



(** Over [0 .. 100] in steps of ten, no clamped multiple of the step is
    23. *)
Lemma stepped_value_never_23 (a : number) :
  seq (max (Fin 0)
         (min (Fin 100)
            (add (Fin 0) (mul (round (div a (Fin 10))) (Fin 10)))))
      (num 23) = false.
Proof.
  destruct a as [ | | q | ]; try reflexivity.
  rewrite div_Fin by lra. cbn [round mul add].
  destruct (clamp_Fin 0 100 (0 + roundQ (q / 10) * 10) ltac:(lra))
    as [r [E [B [Lo [Hi Mid]]]]].
  rewrite E. apply seq_Fin_false. intro H.
  change (inject_Z 23) with 23 in H.
  unfold roundQ in *. set (k := Qfloor (q / 10 + (1 # 2))) in *.
  destruct (Qlt_le_dec (0 + inject_Z k * 10) 0) as [L | L].
  - assert (r == 0) by (apply Lo; lra). lra.
  - destruct (Qlt_le_dec 100 (0 + inject_Z k * 10)) as [G | G].
    + assert (r == 100) by (apply Hi; lra). lra.
    + assert (M : r == 0 + inject_Z k * 10) by (apply Mid; lra).
      assert (K : inject_Z k * 10 == 23) by lra.
      unfold Qeq in K. simpl in K. lia.
Qed.

(** The stepped value of [getRoundedValue] for a positive step. *)
Lemma getRoundedValue_stepped (p : SliderProps) (st c : Q) (v : number) :
  step p = Fin st -> 0 < st ->
  getValueInRange p v = Fin c ->
  getRoundedValue p v = Fin (roundQ (c / st) * st).
Proof.
  intros Hstep S C. unfold getRoundedValue, gt. rewrite C, Hstep.
  assert (L : lt (num 0) (Fin st) = true) by (apply lt_Fin; exact S).
  rewrite L. rewrite div_Fin by lra. reflexivity.
Qed.

(** Rounding the quotient of a value between two multiples of the step
    stays between them. *)
Lemma roundQ_step_between (c st lo hi : Q) :
  0 < st -> multipleOf st lo -> multipleOf st hi ->
  lo <= c <= hi ->
  lo <= roundQ (c / st) * st <= hi.
Proof.
  intros S [a A] [b B] [L H].
  assert (La : inject_Z a <= c / st).
  { assert (E : inject_Z a == lo / st) by (rewrite A; field; lra).
    rewrite E. apply Qdiv_le_compat; assumption. }
  assert (Hb : c / st <= inject_Z b).
  { assert (E : inject_Z b == hi / st) by (rewrite B; field; lra).
    rewrite E. apply Qdiv_le_compat; assumption. }
  apply roundQ_mono in La. apply roundQ_mono in Hb.
  rewrite roundQ_inject_Z in La, Hb.
  rewrite A, B. split; apply Qmult_le_compat_r; lra.
Qed.

(** * The range invariant *)

Create HintDb slider_inv.

Ltac break_if :=
  match goal with
  | |- context [if ?b then _ else _] => destruct b eqn:?
  | |- context [match ?o with Some _ => _ | None => _ end] => destruct o eqn:?
  end.

(** An operation that leaves the props and the two left edges alone keeps
    the invariant. *)
Lemma rangeInvariant_frame (s s' : Slider) :
  props s' = props s ->
  thumbStyles_left s' = thumbStyles_left s ->
  minThumbStyles_left s' = minThumbStyles_left s ->
  rangeInvariant s -> rangeInvariant s'.
Proof.
  unfold rangeInvariant, thumbsOrdered. intros -> -> ->. exact (fun H => H).
Qed.

Ltac frame_inv :=
  intro; eapply rangeInvariant_frame; [ | | | eassumption ]; reflexivity.

Lemma call_inv c s : rangeInvariant s -> rangeInvariant (call c s).
Proof. frame_inv. Qed.

Lemma with_x_inv x s : rangeInvariant s -> rangeInvariant (with_x x s).
Proof. frame_inv. Qed.

Lemma with_x_min_inv x s : rangeInvariant s -> rangeInvariant (with_x_min x s).
Proof. frame_inv. Qed.

Lemma with_lastDx_inv x s : rangeInvariant s -> rangeInvariant (with_lastDx x s).
Proof. frame_inv. Qed.

Lemma with_lastValue_inv x s : rangeInvariant s -> rangeInvariant (with_lastValue x s).
Proof. frame_inv. Qed.

Lemma with_lastMinValue_inv x s :
  rangeInvariant s -> rangeInvariant (with_lastMinValue x s).
Proof. frame_inv. Qed.

Lemma with_initialValue_inv x s :
  rangeInvariant s -> rangeInvariant (with_initialValue x s).
Proof. frame_inv. Qed.

Lemma with_minInitialValue_inv x s :
  rangeInvariant s -> rangeInvariant (with_minInitialValue x s).
Proof. frame_inv. Qed.

Lemma with_initialThumbSize_inv m s :
  rangeInvariant s -> rangeInvariant (with_initialThumbSize m s).
Proof. frame_inv. Qed.

Lemma with_state_inv st s : rangeInvariant s -> rangeInvariant (with_state st s).
Proof. frame_inv. Qed.

Lemma with_sizes_inv c t h s :
  rangeInvariant s -> rangeInvariant (with_sizes c t h s).
Proof. frame_inv. Qed.

Lemma with_minTrackStyles_width_inv w s :
  rangeInvariant s -> rangeInvariant (with_minTrackStyles_width w s).
Proof. frame_inv. Qed.

Lemma with_minTrackStyles_left_inv w s :
  rangeInvariant s -> rangeInvariant (with_minTrackStyles_left w s).
Proof. frame_inv. Qed.

Lemma setActiveThumb_inv r s : rangeInvariant s -> rangeInvariant (setActiveThumb r s).
Proof. frame_inv. Qed.

#[export] Hint Resolve call_inv with_x_inv with_x_min_inv with_lastDx_inv
  with_lastValue_inv with_lastMinValue_inv with_initialValue_inv
  with_minInitialValue_inv with_initialThumbSize_inv with_state_inv
  with_sizes_inv with_minTrackStyles_width_inv with_minTrackStyles_left_inv
  setActiveThumb_inv : slider_inv.

Lemma set_x_inv x s : rangeInvariant s -> rangeInvariant (set_x x s).
Proof. intro H. unfold set_x. break_if; auto with slider_inv. Qed.

Lemma onValueChange_inv v s : rangeInvariant s -> rangeInvariant (onValueChange v s).
Proof. intro H. unfold onValueChange. auto with slider_inv. Qed.

Lemma onRangeChange_inv v s : rangeInvariant s -> rangeInvariant (onRangeChange v s).
Proof.
  intro H. unfold onRangeChange. repeat break_if; auto with slider_inv.
Qed.

#[export] Hint Resolve set_x_inv onValueChange_inv onRangeChange_inv : slider_inv.

Lemma updateValue_inv x s : rangeInvariant s -> rangeInvariant (updateValue x s).
Proof. intro H. unfold updateValue. break_if; auto with slider_inv. Qed.

#[export] Hint Resolve updateValue_inv : slider_inv.

(** The minimum thumb moves only to a left edge at or before the primary
    thumb's. *)
Lemma moveMinTo_inv x s : rangeInvariant s -> rangeInvariant (moveMinTo x s).
Proof.
  intros [U O]. unfold moveMinTo.
  destruct (minThumb_current s); [ | split; assumption ].
  match goal with
  | |- context [if le ?l ?m then _ else _] => destruct (le l m) eqn:G
  end; [ | split; assumption ].
  apply updateValue_inv, with_minTrackStyles_left_inv,
    with_minTrackStyles_width_inv.
  split; [ exact U | ].
  unfold thumbsOrdered. cbn.
  destruct (thumbStyles_left s) as [a | ]; [ exact G | reflexivity ].
Qed.

(** The primary thumb of a range slider moves only to a left edge at or
    after the minimum thumb's. *)
Lemma moveTo_inv x s : rangeInvariant s -> rangeInvariant (moveTo x s).
Proof.
  intros [U O]. unfold moveTo.
  destruct (isDefaultThumbActive s); [ | apply moveMinTo_inv; split; assumption ].
  destruct (thumb_current s); [ | split; assumption ].
  rewrite U.
  match goal with
  | |- context [if ge ?l ?m then _ else _] => destruct (ge l m) eqn:G
  end; [ | split; assumption ].
  apply updateValue_inv, with_minTrackStyles_width_inv.
  split; [ exact U | ].
  unfold thumbsOrdered. cbn.
  destruct (minThumbStyles_left s) as [b | ].
  - exact G.
  - unfold ge in G. cbn in G. discriminate G.
Qed.

#[export] Hint Resolve moveMinTo_inv moveTo_inv : slider_inv.

Ltac inv_auto :=
  cbv zeta; repeat break_if; auto 30 with slider_inv.

Lemma update_inv dx s : rangeInvariant s -> rangeInvariant (update dx s).
Proof. intro H. unfold update. inv_auto. Qed.

Lemma bounceToStep_inv s : rangeInvariant s -> rangeInvariant (bounceToStep s).
Proof. intro H. unfold bounceToStep. inv_auto. Qed.

#[export] Hint Resolve update_inv bounceToStep_inv : slider_inv.

Lemma reset_inv s : rangeInvariant s -> rangeInvariant (reset s).
Proof. intro H. unfold reset. inv_auto. Qed.

Lemma handlePanResponderGrant_inv s :
  rangeInvariant s -> rangeInvariant (handlePanResponderGrant s).
Proof. intro H. unfold handlePanResponderGrant, onSeekStart. inv_auto. Qed.

Lemma handlePanResponderMove_inv dx s :
  rangeInvariant s -> rangeInvariant (handlePanResponderMove dx s).
Proof. intro H. unfold handlePanResponderMove. inv_auto. Qed.

Lemma handlePanResponderEnd_inv s :
  rangeInvariant s -> rangeInvariant (handlePanResponderEnd s).
Proof. intro H. unfold handlePanResponderEnd, onSeekEnd. inv_auto. Qed.

Lemma updateTrackStepAndStyle_inv x s :
  rangeInvariant s -> rangeInvariant (updateTrackStepAndStyle x s).
Proof. intro H. unfold updateTrackStepAndStyle. inv_auto. Qed.

#[export] Hint Resolve updateTrackStepAndStyle_inv : slider_inv.

Lemma handleTrackPress_inv x s :
  rangeInvariant s -> rangeInvariant (handleTrackPress x s).
Proof.
  intro H. unfold handleTrackPress, onSeekEnd, onSeekStart. inv_auto.
Qed.

Lemma componentDidUpdate_inv pp ps s :
  rangeInvariant s -> rangeInvariant (componentDidUpdate pp ps s).
Proof. intro H. unfold componentDidUpdate. inv_auto. Qed.

#[export] Hint Resolve componentDidUpdate_inv : slider_inv.

Lemma setState_measureCompleted_inv b s :
  rangeInvariant s -> rangeInvariant (setState_measureCompleted b s).
Proof. intro H. unfold setState_measureCompleted. inv_auto. Qed.

Lemma setState_sizes_inv c t h s :
  rangeInvariant s -> rangeInvariant (setState_sizes c t h s).
Proof. intro H. unfold setState_sizes. inv_auto. Qed.

#[export] Hint Resolve setState_measureCompleted_inv setState_sizes_inv
  : slider_inv.

Lemma onOrientationChanged_inv s :
  rangeInvariant s -> rangeInvariant (onOrientationChanged s).
Proof. intro H. unfold onOrientationChanged. inv_auto. Qed.

Lemma handleMeasure_inv name l s :
  rangeInvariant s -> rangeInvariant (handleMeasure name l s).
Proof.
  intro H. unfold handleMeasure. cbv zeta.
  destruct (match measured name s with Some _ => _ | None => false end);
    [ exact H | ].
  assert (M : rangeInvariant (set_measured name
                                (mkMeasurements (width l) (height l)) s)).
  { destruct name; cbn [set_measured]; auto with slider_inv. }
  destruct (containerSize _); [ | exact M ].
  destruct (thumbSize _); [ | exact M ].
  destruct (trackSize _); [ | exact M ].
  auto with slider_inv.
Qed.

#[export] Hint Resolve handleMeasure_inv : slider_inv.

Lemma onAccessibilityAction_inv a s :
  rangeInvariant s -> rangeInvariant (onAccessibilityAction a s).
Proof. intro H. unfold onAccessibilityAction. inv_auto. Qed.

Lemma receiveValue_inv v s : rangeInvariant s -> rangeInvariant (receiveValue v s).
Proof.
  intro H. unfold receiveValue. cbv zeta. apply componentDidUpdate_inv.
  destruct H as [U O]. split; [ exact U | exact O ].
Qed.

Lemma handle_inv e s : rangeInvariant s -> rangeInvariant (handle e s).
Proof.
  intro H. destruct e; cbn [handle].
  - apply handleMeasure_inv, H.
  - unfold onTrackLayout. auto with slider_inv.
  - apply handleMeasure_inv, H.
  - apply onOrientationChanged_inv, H.
  - apply setActiveThumb_inv, H.
  - apply setActiveThumb_inv, H.
  - apply handlePanResponderGrant_inv, H.
  - apply handlePanResponderMove_inv, H.
  - apply handlePanResponderEnd_inv, H.
  - apply handleTrackPress_inv, H.
  - apply onAccessibilityAction_inv, H.
  - apply reset_inv, H.
  - apply receiveValue_inv, H.
Qed.

Lemma run_inv es : forall s, rangeInvariant s -> rangeInvariant (run es s).
Proof.
  induction es as [ | e es IH ]; intros s H; cbn.
  - exact H.
  - apply IH, handle_inv, H.
Qed.

Lemma constructor_inv p :
  useRange p = true -> rangeInvariant (mounted (constructor p)).
Proof. intro U. split; [ exact U | reflexivity ]. Qed.

(** * Rejected moves *)

Lemma moveAccepted_set_x x y s : moveAccepted x (set_x y s) = moveAccepted x s.
Proof.
  unfold moveAccepted, set_x, isDefaultThumbActive, leftFor.
  destruct (activeThumbRef s) eqn:A; cbn; rewrite A; reflexivity.
Qed.

Lemma moveTo_rejected x s :
  useRange (props s) = true -> moveAccepted x s = false -> moveTo x s = s.
Proof.
  intros U R. unfold moveTo, moveMinTo. unfold moveAccepted in R.
  destruct (isDefaultThumbActive s).
  - destruct (thumb_current s); [ | reflexivity ]. rewrite U.
    cbn [andb] in R. cbv zeta. rewrite R. reflexivity.
  - destruct (minThumb_current s); [ | reflexivity ].
    cbn [andb] in R. cbv zeta. rewrite R. reflexivity.
Qed.

Lemma props_set_x x s : props (set_x x s) = props s.
Proof. unfold set_x. destruct (isDefaultThumbActive s); reflexivity. Qed.

Lemma get_set_x x s : get_x (set_x x s) = x.
Proof.
  unfold get_x, set_x, isDefaultThumbActive.
  destruct (activeThumbRef s) eqn:A; cbn; rewrite A; reflexivity.
Qed.

Lemma update_rejected dx s :
  useRange (props s) = true ->
  moveAccepted (updatedOffset dx s) s = false ->
  update dx s = set_x (updatedOffset dx s) s.
Proof.
  intros U R. unfold update. cbv zeta. fold (updatedOffset dx s).
  rewrite moveTo_rejected;
    [ | rewrite props_set_x; exact U | rewrite moveAccepted_set_x; exact R ].
  rewrite props_set_x, U. reflexivity.
Qed.

(** * What measurement leaves alone on a single-value slider *)

Create HintDb slider_quiet.

Lemma committed_frame (v m : number) (t : list Call) (s s' : Slider) :
  props s' = props s ->
  minThumb_current s' = minThumb_current s ->
  lastValue s' = lastValue s ->
  lastMinValue s' = lastMinValue s ->
  trace s' = trace s ->
  committed v m t s -> committed v m t s'.
Proof.
  unfold committed. intros -> -> -> -> ->. exact (fun H => H).
Qed.

Ltac frame_quiet :=
  intro; eapply committed_frame; [ | | | | | eassumption ]; reflexivity.

Section Quiet.

Variables (v m : number) (t : list Call).

Lemma with_x_quiet x s : committed v m t s -> committed v m t (with_x x s).
Proof. frame_quiet. Qed.

Lemma with_x_min_quiet x s : committed v m t s -> committed v m t (with_x_min x s).
Proof. frame_quiet. Qed.

Lemma with_initialValue_quiet x s :
  committed v m t s -> committed v m t (with_initialValue x s).
Proof. frame_quiet. Qed.

Lemma with_minInitialValue_quiet x s :
  committed v m t s -> committed v m t (with_minInitialValue x s).
Proof. frame_quiet. Qed.

Lemma with_initialThumbSize_quiet x s :
  committed v m t s -> committed v m t (with_initialThumbSize x s).
Proof. frame_quiet. Qed.

Lemma with_state_quiet x s : committed v m t s -> committed v m t (with_state x s).
Proof. frame_quiet. Qed.

Lemma with_sizes_quiet a b c s :
  committed v m t s -> committed v m t (with_sizes a b c s).
Proof. frame_quiet. Qed.

Lemma with_thumbStyles_left_quiet x s :
  committed v m t s -> committed v m t (with_thumbStyles_left x s).
Proof. frame_quiet. Qed.

Lemma with_minTrackStyles_width_quiet x s :
  committed v m t s -> committed v m t (with_minTrackStyles_width x s).
Proof. frame_quiet. Qed.

Hint Resolve with_x_quiet with_x_min_quiet with_initialValue_quiet
  with_minInitialValue_quiet with_initialThumbSize_quiet with_state_quiet
  with_sizes_quiet with_thumbStyles_left_quiet with_minTrackStyles_width_quiet
  : slider_quiet.

(** On a single-value slider [moveTo] only restyles: the minimum thumb is
    not rendered, and the primary thumb moves without a call. *)
Lemma moveTo_quiet x s : committed v m t s -> committed v m t (moveTo x s).
Proof.
  intro H. assert (H' := H). destruct H' as [U [M _]].
  unfold moveTo, moveMinTo. rewrite U, M. cbv zeta.
  repeat break_if; auto with slider_quiet.
Qed.

Hint Resolve moveTo_quiet : slider_quiet.

Lemma componentDidUpdate_quiet ps s :
  committed v m t s -> committed v m t (componentDidUpdate (props s) ps s).
Proof.
  intro H. unfold componentDidUpdate. cbv zeta.
  repeat break_if; auto 20 with slider_quiet.
Qed.

Lemma setState_measureCompleted_quiet b s :
  committed v m t s -> committed v m t (setState_measureCompleted b s).
Proof.
  intro H. unfold setState_measureCompleted. cbv zeta.
  break_if; [ exact H | ].
  apply (componentDidUpdate_quiet (state s)
           (with_state (mkState (st_containerSize (state s))
                          (st_trackSize (state s)) (st_thumbSize (state s)) b) s)).
  auto with slider_quiet.
Qed.

Lemma setState_sizes_quiet a b c s :
  committed v m t s -> committed v m t (setState_sizes a b c s).
Proof.
  intro H. unfold setState_sizes. cbv zeta.
  apply (componentDidUpdate_quiet (state s)
           (with_state (mkState a b c (measureCompleted (state s))) s)).
  auto with slider_quiet.
Qed.

Hint Resolve setState_measureCompleted_quiet setState_sizes_quiet : slider_quiet.

Lemma handleMeasure_quiet name l s :
  committed v m t s -> committed v m t (handleMeasure name l s).
Proof.
  intro H. unfold handleMeasure. cbv zeta.
  destruct (match measured name s with Some _ => _ | None => false end);
    [ exact H | ].
  assert (M : committed v m t (set_measured name
                                 (mkMeasurements (width l) (height l)) s)).
  { destruct name; cbn [set_measured]; auto with slider_quiet. }
  destruct (containerSize _); [ | exact M ].
  destruct (thumbSize _); [ | exact M ].
  destruct (trackSize _); [ | exact M ].
  auto with slider_quiet.
Qed.

Lemma handle_measurement_quiet e s :
  isMeasurement e = true ->
  committed v m t s -> committed v m t (handle e s).
Proof.
  intros E H. destruct e; try discriminate E; cbn [handle].
  - apply handleMeasure_quiet, H.
  - apply handleMeasure_quiet, setState_measureCompleted_quiet, H.
  - apply handleMeasure_quiet, H.
  - unfold onOrientationChanged. cbv zeta. auto with slider_quiet.
Qed.

Lemma run_measurement_quiet es :
  forall s, forallb isMeasurement es = true ->
            committed v m t s -> committed v m t (run es s).
Proof.
  induction es as [ | e es IH ]; intros s A H; cbn.
  - exact H.
  - cbn in A. apply andb_prop in A. destruct A as [A1 A2].
    apply IH; [ exact A2 | ]. apply handle_measurement_quiet; assumption.
Qed.

End Quiet.

(** * What moving a thumb leaves alone *)

Ltac core_auto :=
  cbv zeta; repeat break_if; unfold sameCore; cbn; repeat split; reflexivity.

Lemma updateValue_core x s : sameCore s (updateValue x s).
Proof.
  unfold updateValue, onRangeChange, onValueChange. core_auto.
Qed.

Lemma moveTo_core x s : sameCore s (moveTo x s).
Proof.
  unfold moveTo, moveMinTo, updateValue, onRangeChange, onValueChange.
  core_auto.
Qed.

Lemma get_x_core s s' : sameCore s s' -> get_x s' = get_x s.
Proof.
  intros [_ [_ [A [X [M _]]]]]. unfold get_x, isDefaultThumbActive.
  rewrite A, X, M. reflexivity.
Qed.

(** The conversions read the props, the track width and the initial thumb
    size of the component, nothing else. *)
Lemma getValueForX_ext s s' x :
  props s' = props s -> state s' = state s ->
  initialThumbSize s' = initialThumbSize s ->
  getValueForX s' x = getValueForX s x.
Proof. unfold getValueForX. intros -> -> ->. reflexivity. Qed.

Lemma getXForValue_ext s s' v :
  props s' = props s -> state s' = state s ->
  getXForValue s' v = getXForValue s v.
Proof. unfold getXForValue. intros -> ->. reflexivity. Qed.

Lemma getValueForX_set_x y s x : getValueForX (set_x y s) x = getValueForX s x.
Proof.
  apply getValueForX_ext; unfold set_x; destruct (isDefaultThumbActive s);
    reflexivity.
Qed.

Lemma getXForValue_set_x y s v : getXForValue (set_x y s) v = getXForValue s v.
Proof.
  apply getXForValue_ext; unfold set_x; destruct (isDefaultThumbActive s);
    reflexivity.
Qed.

Lemma sne_same (a : number) : isNaN a = false -> sne a a = false.
Proof.
  destruct a as [ | | q | ]; intro H; try discriminate; try reflexivity.
  unfold sne. cbn. assert (E : Qeq_bool q q = true) by (apply Qeq_bool_iff; reflexivity).
  rewrite E. reflexivity.
Qed.

(** The trace only grows. *)
Lemma extends_refl s : extends s s.
Proof. exists []. rewrite app_nil_r. reflexivity. Qed.

Lemma extends_trans s1 s2 s3 : extends s1 s2 -> extends s2 s3 -> extends s1 s3.
Proof.
  intros [l1 E1] [l2 E2]. exists (l1 ++ l2). rewrite E2, E1, app_assoc.
  reflexivity.
Qed.

Lemma extends_same s s' : trace s' = trace s -> extends s s'.
Proof. intro E. exists []. rewrite E, app_nil_r. reflexivity. Qed.

Lemma extends_call c s s' : trace s' = trace s -> extends s (call c s').
Proof. intro E. exists [c]. cbn. rewrite E. reflexivity. Qed.

Lemma updateValue_extends x s : extends s (updateValue x s).
Proof.
  unfold updateValue, onRangeChange, onValueChange. cbv zeta.
  repeat break_if; apply extends_call; reflexivity.
Qed.

Lemma moveTo_extends x s : extends s (moveTo x s).
Proof.
  unfold moveTo, moveMinTo. cbv zeta.
  repeat break_if; try apply extends_refl;
    try (apply extends_same; reflexivity);
    (eapply extends_trans; [ | apply updateValue_extends ]);
    apply extends_same; reflexivity.
Qed.

Lemma set_x_trace x s : trace (set_x x s) = trace s.
Proof. unfold set_x. destruct (isDefaultThumbActive s); reflexivity. Qed.

Lemma bounceToStep_extends s : extends s (bounceToStep s).
Proof.
  unfold bounceToStep. cbv zeta. break_if; [ | apply extends_refl ].
  eapply extends_trans; [ | apply moveTo_extends ].
  apply extends_same, set_x_trace.
Qed.

(** After [bounceToStep] on a positive step the active offset is the offset
    of the stepped value. *)
Lemma bounceToStep_get_x s :
  gt (step (props s)) (num 0) = true ->
  get_x (bounceToStep s)
  = getXForValue s (getRoundedValue (props s) (getValueForX s (get_x s))).
Proof.
  intro G. unfold bounceToStep. rewrite G. cbv zeta.
  rewrite (get_x_core _ _ (moveTo_core _ _)). apply get_set_x.
Qed.

(** [componentDidUpdate] under unchanged props keeps the initial values and
    the React state. *)
Lemma componentDidUpdate_initial ps s :
  isNaN (value (props s)) = false ->
  initialValue (componentDidUpdate (props s) ps s) = initialValue s
  /\ minInitialValue (componentDidUpdate (props s) ps s) = minInitialValue s
  /\ state (componentDidUpdate (props s) ps s) = state s.
Proof.
  intro N. unfold componentDidUpdate.
  rewrite (sne_same _ N), andb_false_r. cbv zeta.
  break_if; [ | repeat split ].
  match goal with
  | |- context [moveTo ?x ?s'] =>
      destruct (moveTo_core x s') as [_ [S [_ [_ [_ [_ [I [M _]]]]]]]]
  end.
  rewrite I, M, S. repeat split.
Qed.

Lemma onOrientationChanged_initial s :
  isNaN (value (props s)) = false ->
  initialValue (onOrientationChanged s) = lastValue s
  /\ minInitialValue (onOrientationChanged s) = lastMinValue s
  /\ measureCompleted (state (onOrientationChanged s)) = false.
Proof.
  intro N. unfold onOrientationChanged, setState_measureCompleted. cbv zeta.
  cbn [state with_minInitialValue with_initialValue props].
  destruct (measureCompleted (state s)) eqn:MC; cbn [Bool.eqb].
  - match goal with
    | |- context [componentDidUpdate ?p ?ps ?s'] =>
        destruct (componentDidUpdate_initial ps s' N) as [I [M S]]
    end.
    cbn [props with_state with_minInitialValue with_initialValue] in I, M, S.
    rewrite I, M, S. repeat split.
  - cbn. rewrite ?MC. repeat split.
Qed.

(** A rational within half a unit of an integer rounds to it, the upper
    half excluded. *)
Lemma roundQ_eq (q : Q) (n : Z) :
  inject_Z n - (1 # 2) <= q -> q < inject_Z n + (1 # 2) ->
  roundQ q == inject_Z n.
Proof.
  intros L U. unfold roundQ.
  assert (A := Qfloor_le (q + (1 # 2))).
  assert (B := Qlt_floor (q + (1 # 2))).
  set (f := Qfloor (q + (1 # 2))) in *.
  rewrite inject_Z_plus in B. change (inject_Z 1) with 1 in B.
  assert (f <= n)%Z.
  { apply Z.lt_succ_r. rewrite Zlt_Qlt. unfold Z.succ.
    rewrite inject_Z_plus. change (inject_Z 1) with 1. lra. }
  assert (n <= f)%Z.
  { apply Z.lt_succ_r. rewrite Zlt_Qlt. unfold Z.succ.
    rewrite inject_Z_plus. change (inject_Z 1) with 1. lra. }
  assert (E : f = n) by lia. rewrite E. reflexivity.
Qed.

(** On a single-value slider whose primary thumb is active, [moveTo] calls
    nothing and commits nothing. *)
Lemma moveTo_single x s :
  useRange (props s) = false -> isDefaultThumbActive s = true ->
  trace (moveTo x s) = trace s /\ lastValue (moveTo x s) = lastValue s.
Proof.
  intros U A. unfold moveTo. rewrite A, U. cbv zeta.
  destruct (thumb_current s); split; reflexivity.
Qed.

Lemma isDefaultThumbActive_core s s' :
  sameCore s s' -> isDefaultThumbActive s' = isDefaultThumbActive s.
Proof.
  intros [_ [_ [A _]]]. unfold isDefaultThumbActive. rewrite A. reflexivity.
Qed.

Lemma isDefaultThumbActive_set_x x s :
  isDefaultThumbActive (set_x x s) = isDefaultThumbActive s.
Proof.
  unfold set_x, isDefaultThumbActive.
  destruct (activeThumbRef s) eqn:A; cbn; rewrite A; reflexivity.
Qed.

Lemma lastValue_set_x x s : lastValue (set_x x s) = lastValue s.
Proof. unfold set_x. destruct (isDefaultThumbActive s); reflexivity. Qed.

(** The release of a gesture on a single-value slider with a positive
    step. *)
Lemma handlePanResponderEnd_single s :
  useRange (props s) = false -> isDefaultThumbActive s = true ->
  gt (step (props s)) (num 0) = true ->
  _x (handlePanResponderEnd s)
  = getXForValue s (getRoundedValue (props s) (getValueForX s (_x s)))
  /\ lastValue (handlePanResponderEnd s) = lastValue s
  /\ trace (handlePanResponderEnd s) = trace s ++ [onSeekEnd_call].
Proof.
  intros U A G.
  assert (B := bounceToStep_get_x s G).
  assert (C : isDefaultThumbActive (bounceToStep s) = true
              /\ trace (bounceToStep s) = trace s
              /\ lastValue (bounceToStep s) = lastValue s).
  { unfold bounceToStep. rewrite G. cbv zeta.
    match goal with
    | |- context [moveTo ?x ?s'] =>
        assert (K := isDefaultThumbActive_core _ _ (moveTo_core x s'));
        destruct (moveTo_single x s') as [T L]
    end.
    - rewrite props_set_x. exact U.
    - rewrite isDefaultThumbActive_set_x. exact A.
    - rewrite K, T, L, isDefaultThumbActive_set_x, set_x_trace, lastValue_set_x.
      repeat split. exact A. }
  destruct C as [C [T L]].
  unfold get_x in B. rewrite C, A in B.
  unfold handlePanResponderEnd, onSeekEnd. cbn. rewrite T, L.
  repeat split. exact B.
Qed.

(** A move of the gesture on an enabled single-value slider reports the
    value of the new offset. *)
Lemma update_single dx s :
  useRange (props s) = false -> isDefaultThumbActive s = true ->
  _x (update dx s) = updatedOffset dx s
  /\ lastValue (update dx s) = getValueForX s (updatedOffset dx s)
  /\ trace (update dx s)
     = trace s ++ [onValueChange_call (getValueForX s (updatedOffset dx s))].
Proof.
  intros U A. unfold update. cbv zeta. fold (updatedOffset dx s).
  set (x := updatedOffset dx s).
  assert (U1 : useRange (props (set_x x s)) = false)
    by (rewrite props_set_x; exact U).
  assert (A1 : isDefaultThumbActive (set_x x s) = true)
    by (rewrite isDefaultThumbActive_set_x; exact A).
  destruct (moveTo_single x (set_x x s) U1 A1) as [T _].
  destruct (moveTo_core x (set_x x s))
    as [P [S [_ [X [_ [_ [_ [_ [I _]]]]]]]]].
  assert (V : getValueForX (moveTo x (set_x x s)) x = getValueForX s x).
  { rewrite (getValueForX_ext _ _ x P S I). apply getValueForX_set_x. }
  rewrite P, U1. cbn [negb]. unfold updateValue. rewrite P, U1.
  unfold onValueChange. cbn. rewrite V, T, X, set_x_trace.
  repeat split. unfold set_x. rewrite A. reflexivity.
Qed.

Lemma handlePanResponderMove_single g s :
  useRange (props s) = false -> isDefaultThumbActive s = true ->
  disabled (props s) = false ->
  lastValue (handlePanResponderMove g s)
  = getValueForX s (_x (handlePanResponderMove g s))
  /\ trace (handlePanResponderMove g s)
     = trace s ++ [onValueChange_call (lastValue (handlePanResponderMove g s))].
Proof.
  intros U A D. unfold handlePanResponderMove. rewrite D. cbv zeta.
  match goal with
  | |- context [update ?dx s] => destruct (update_single dx s U A) as [X [L T]]
  end.
  cbn. rewrite X, L, T. split; reflexivity.
Qed.


(** * Exact arithmetic and binary64

    [number] computes a product, a quotient or a sum exactly where binary64
    rounds it.  The statements below are those that do not depend on this:
    they order, clamp and compare values, equate results of one and the same
    computation, assume the range and the divisor finite as computed, and
    keep a margin wherever a quotient is rounded to a whole number of
    steps. *)

(** * Monotonicity of [getValueForX] *)




(** * The degenerate range *)




(** * Value to offset *)




(** * Round trip *)

(** C1, as it holds: when [minimumValue] as well as
    [maximumValue - minimumValue] is a whole number of steps, and the track
    is at least one pixel wide and at least as long as the thumb width
    times the number of steps of the range, a value of the range taken to
    its offset and back lies in the same step bucket.  The step is kept
    between a millionth and a million, and the numbers of steps within a
    million, so that no quotient the code rounds comes close to a tie. *)
Theorem roundTrip_same_bucket (s : Slider) (mn mx st w t v : Q) (a k : Z) :
  minimumValue (props s) = Fin mn ->
  maximumValue (props s) = Fin mx ->
  step (props s) = Fin st ->
  width (st_trackSize (state s)) = Fin w ->
  width (initialThumbSize s) = Fin t ->
  (1 # 1000000) <= st <= 1000000 ->
  mn == inject_Z a * st -> mx - mn == inject_Z k * st ->
  (Z.abs a <= 1000000)%Z -> (1 <= k <= 1000000)%Z ->
  0 <= t -> 1 <= w -> inject_Z k * t <= w ->
  mn <= v <= mx ->
  sameStepBucket (props s) (roundTrip s (Fin v)) (Fin v) = true.
Proof.
  intros Hmin Hmax Hstep Hw Ht [S _] A K _ [K1 _] T0 W1 KT V.
  assert (S0 : 0 < st) by lra.
  assert (NS : ~ st == 0) by lra.
  assert (Kq : 1 <= inject_Z k).
  { change 1 with (inject_Z 1). rewrite <- Zle_Qle. exact K1. }
  assert (R : mn < mx).
  { assert (0 < inject_Z k * st) by (apply Qmult_lt_0_compat; lra). lra. }
  assert (B : mn <= mx) by lra.
  assert (Amn : multipleOf st mn) by (exists a; exact A).
  assert (Amx : multipleOf st mx).
  { exists (k + a)%Z. rewrite inject_Z_plus.
    assert (E : mx == (mx - mn) + mn) by ring. rewrite E, K, A. ring. }
  (* the divisor is positive *)
  assert (TW : t <= w).
  { assert (0 <= (inject_Z k - 1) * t) by (apply Qmult_le_0_compat; lra). lra. }
  assert (P : 0 < reach w t).
  { unfold reach. assert (t / 2 == (1 # 2) * t) by field. lra. }
  assert (NR : ~ reach w t == 0) by lra.
  (* the stepped value *)
  destruct (getValueInRange_clamps (props s) mn mx (Fin v) Hmin Hmax B eq_refl)
    as [c [C [_ F]]].
  rewrite (F v eq_refl V) in C. clear F c.
  assert (RV := getRoundedValue_stepped (props s) st v (Fin v) Hstep S0 C).
  set (n := Qfloor (v / st + (1 # 2))) in *.
  change (roundQ (v / st)) with (inject_Z n) in RV.
  assert (I : mn <= inject_Z n * st <= mx)
    by exact (roundQ_step_between v st mn mx S0 Amn Amx V).
  (* its distance from the minimum, in steps *)
  set (j := (n - a)%Z).
  assert (Ej : inject_Z j == inject_Z n - inject_Z a).
  { unfold j, Zminus. rewrite inject_Z_plus, inject_Z_opp. ring. }
  assert (J0 : 0 <= inject_Z j).
  { apply (Qmult_le_r _ _ st S0). rewrite Ej. lra. }
  assert (JK : inject_Z j <= inject_Z k).
  { apply (Qmult_le_r _ _ st S0). rewrite Ej. lra. }
  (* its offset *)
  destruct (getXForValue_Fin s mn mx w (inject_Z n * st) Hmin Hmax Hw R (proj1 I))
    as [x [X EX]].
  (* and back *)
  assert (Back : x / reach w t * (mx - mn) / st == inject_Z j * w / reach w t).
  { rewrite EX, K, Ej, A. field. repeat split; try lra. }
  assert (Inner : exists r, roundTrip s (Fin v) = Fin r /\ r == inject_Z n * st).
  { unfold roundTrip, valueToOffset. rewrite RV, X.
    rewrite (getValueForX_stepped s mn mx st w t Hmin Hmax Hstep Hw Ht x NR NS).
    destruct (clamp_Fin mn mx
                (mn + roundQ (x / reach w t * (mx - mn) / st) * st) B)
      as [r [E [_ [_ [Hi M]]]]].
    exists r. split; [ exact E | ].
    rewrite (roundQ_compat _ _ Back) in Hi, M.
    assert (Low : inject_Z j <= inject_Z j * w / reach w t).
    { apply Qle_shift_div_l; [ exact P | ]. unfold reach.
      assert (H2 : t / 2 == (1 # 2) * t) by field.
      assert (0 <= inject_Z j * t) by (apply Qmult_le_0_compat; lra).
      rewrite H2. lra. }
    destruct (Z_lt_le_dec j k) as [Lt | Ge].
    - (* short of the maximum: the quotient rounds to [j] *)
      assert (J1 : inject_Z j <= inject_Z k - 1).
      { assert (j <= k - 1)%Z by lia.
        rewrite Zle_Qle in H. unfold Zminus in H.
        rewrite inject_Z_plus, inject_Z_opp in H. exact H. }
      assert (Up : inject_Z j * w / reach w t < inject_Z j + (1 # 2)).
      { apply Qlt_shift_div_r; [ exact P | ]. unfold reach.
        assert (H2 : t / 2 == (1 # 2) * t) by field. rewrite H2.
        assert (0 <= (inject_Z k - 1 - inject_Z j) * t)
          by (apply Qmult_le_0_compat; lra).
        destruct (Qeq_dec t 0) as [Z | NZ].
        - assert (inject_Z j * t == 0) by (rewrite Z; ring). lra.
        - lra. }
      assert (Rq : roundQ (inject_Z j * w / reach w t) == inject_Z j)
        by (apply roundQ_eq; lra).
      assert (Inn : mn + roundQ (inject_Z j * w / reach w t) * st
                    == inject_Z n * st).
      { rewrite Rq, Ej, A. ring. }
      rewrite M; rewrite Inn; [ reflexivity | exact I ].
    - (* at the maximum: the quotient rounds to [k] or more *)
      assert (Jk : inject_Z j == inject_Z k).
      { assert (j = k) by (rewrite <- Zle_Qle in JK; lia). subst. reflexivity. }
      assert (Rq : inject_Z k <= roundQ (inject_Z j * w / reach w t)).
      { rewrite <- (roundQ_inject_Z k). apply roundQ_mono. lra. }
      assert (Top : inject_Z n * st == mx).
      { assert (E2 : (inject_Z n - inject_Z a) * st == inject_Z k * st)
          by (rewrite <- Ej, Jk; reflexivity).
        lra. }
      assert (inject_Z k * st <= roundQ (inject_Z j * w / reach w t) * st)
        by (apply Qmult_le_compat_r; lra).
      rewrite Hi; lra. }
  destruct Inner as [r [RT Er]].
  unfold sameStepBucket. rewrite RV.
  assert (Ir : mn <= r <= mx) by (rewrite Er; exact I).
  destruct (getValueInRange_clamps (props s) mn mx (Fin r) Hmin Hmax B eq_refl)
    as [c [C' [_ F]]].
  rewrite RT. rewrite (F r eq_refl Ir) in C'.
  rewrite (getRoundedValue_stepped (props s) st r (Fin r) Hstep S0 C').
  apply seq_Fin.
  assert (Q : r / st == inject_Z n) by (rewrite Er; field; lra).
  rewrite (roundQ_compat _ _ Q), roundQ_inject_Z. reflexivity.
Qed.

(** Witness of [roundTrip_same_bucket]: the value 23 on the wide slider,
    whose track of 1000 is more than ten thumbs long. *)
Lemma roundTrip_same_bucket_witness :
  sameStepBucket (props wideSlider) (roundTrip wideSlider (Fin 23)) (Fin 23)
  = true.
Proof.
  apply (roundTrip_same_bucket wideSlider 0 100 10 1000 24 23 0 10);
    try (vm_compute; reflexivity); try lra; try lia.
  vm_compute. discriminate.
Defined.

(** C1 as stated fails in two ways.  On the stepped slider, whose track of
    100 is shorter than ten thumbs of 24, the value 50 goes to the offset
    50 and comes back as 60, a step away.  On the slider over [5 .. 25],
    whose step 10 divides the range but not the minimum, the value 12 has
    the stepped value 10 and comes back as 15, whose stepped value is
    20. *)
Lemma roundTrip_leaves_bucket :
  le (minimumValue (props steppedSlider)) (num 50) = true
  /\ le (num 50) (maximumValue (props steppedSlider)) = true
  /\ gt (step (props steppedSlider)) (num 0) = true
  /\ multipleOf 10 (100 - 0)
  /\ seq (valueToOffset steppedSlider (num 50)) (num 50) = true
  /\ seq (roundTrip steppedSlider (num 50)) (num 60) = true
  /\ sameStepBucket (props steppedSlider)
       (roundTrip steppedSlider (num 50)) (num 50) = false
  /\ le (minimumValue (props offsetSlider)) (num 12) = true
  /\ le (num 12) (maximumValue (props offsetSlider)) = true
  /\ multipleOf 10 (25 - 5)
  /\ seq (getRoundedValue (props offsetSlider) (num 12)) (num 10) = true
  /\ seq (roundTrip offsetSlider (num 12)) (num 15) = true
  /\ seq (getRoundedValue (props offsetSlider) (roundTrip offsetSlider (num 12)))
         (num 20) = true
  /\ sameStepBucket (props offsetSlider)
       (roundTrip offsetSlider (num 12)) (num 12) = false.
Proof.
  by_evaluation.
  - exists 10%Z. reflexivity.
  - exists 2%Z. reflexivity.
Qed.

(** * Range mode *)

(** C2, as it holds: on a range slider, whatever the sequence of events
    since construction, the rendered left edge of the primary thumb, once
    assigned, is at or after that of the minimum thumb; an update that would
    make the thumbs cross leaves the rendered edges, the track segment and
    the last committed values as they were and calls nothing, yet it stores
    the clamped offset as the pixel offset of the active thumb. *)
Theorem range_thumbs_never_cross :
  (forall (p : SliderProps) (es : list Event),
      useRange p = true ->
      thumbsOrdered (run es (mounted (constructor p))) = true)
  /\ (forall (s : Slider) (dx : number),
         useRange (props s) = true ->
         moveAccepted (updatedOffset dx s) s = false ->
         update dx s = set_x (updatedOffset dx s) s
         /\ thumbStyles_left (update dx s) = thumbStyles_left s
         /\ minThumbStyles_left (update dx s) = minThumbStyles_left s
         /\ minTrackStyles_width (update dx s) = minTrackStyles_width s
         /\ minTrackStyles_left (update dx s) = minTrackStyles_left s
         /\ lastValue (update dx s) = lastValue s
         /\ lastMinValue (update dx s) = lastMinValue s
         /\ trace (update dx s) = trace s
         /\ get_x (update dx s) = updatedOffset dx s).
Proof.
  split.
  - intros p es U. apply (run_inv es (mounted (constructor p))).
    apply constructor_inv. exact U.
  - intros s dx U R. rewrite (update_rejected dx s U R).
    split; [ reflexivity | ].
    rewrite get_set_x. unfold set_x.
    destruct (isDefaultThumbActive s); repeat split.
Qed.

(** Witness of [range_thumbs_never_cross]: the range slider after a drag of
    the minimum thumb past the primary thumb, and that drag itself. *)
Lemma range_thumbs_never_cross_witness :
  thumbsOrdered
    (run (firstLayout 100 24
          ++ [MinTouchStart; PanResponderGrant; PanResponderMove (num 50)])
       (mounted (constructor (sliderProps 0 100 0 true)))) = true
  /\ update (num 50) (run [MinTouchStart; PanResponderGrant] rangeSlider)
     = set_x (updatedOffset (num 50)
                (run [MinTouchStart; PanResponderGrant] rangeSlider))
         (run [MinTouchStart; PanResponderGrant] rangeSlider).
Proof.
  split.
  - apply (proj1 range_thumbs_never_cross); reflexivity.
  - apply (proj2 range_thumbs_never_cross); vm_compute; reflexivity.
Defined.

(** C2 as stated fails in its second half: dragging the minimum thumb of
    the range slider by 50 would carry it past the primary thumb; the move
    is rejected, the rendered edges, the committed values and the trace stay
    as they were, but the pixel offset of the minimum thumb goes from 0 to
    50, past the offset 1 of the primary thumb. *)
Lemma rejected_move_changes_offset :
  useRange (props rangeSlider) = true
  /\ moveAccepted (num 50) (run [MinTouchStart; PanResponderGrant] rangeSlider)
     = false
  /\ minThumbStyles_left
       (run [MinTouchStart; PanResponderGrant; PanResponderMove (num 50)]
          rangeSlider)
     = minThumbStyles_left rangeSlider
  /\ seq (_x_min rangeSlider) (num 0) = true
  /\ seq (_x_min (run [MinTouchStart; PanResponderGrant;
                       PanResponderMove (num 50)] rangeSlider)) (num 50) = true
  /\ seq (_x (run [MinTouchStart; PanResponderGrant;
                   PanResponderMove (num 50)] rangeSlider)) (num 1) = true
  /\ run [MinTouchStart; PanResponderGrant; PanResponderMove (num 50)]
       rangeSlider
     <> run [MinTouchStart; PanResponderGrant] rangeSlider.
Proof.
  by_evaluation.
  intro E. apply (f_equal _x_min) in E. vm_compute in E. discriminate E.
Qed.

(** * Seek callbacks and the disabled flag *)

(** C9: for every component, [onSeekStart] is called at the grant of a
    gesture and [onSeekEnd] at its release, after [bounceToStep] has run,
    which on a positive step moves the active offset to the offset of the
    stepped value; when [disabled] is set, this is unchanged, and only the
    move of the gesture and the press on the track do nothing. *)
Theorem seek_callbacks_when_disabled (s : Slider) (gesture_dx locationX : number) :
  disabled (props s) = true ->
  trace (handlePanResponderGrant s) = trace s ++ [onSeekStart_call]
  /\ handlePanResponderEnd s = onSeekEnd (bounceToStep s)
  /\ trace (handlePanResponderEnd s) = trace (bounceToStep s) ++ [onSeekEnd_call]
  /\ (exists l, trace (handlePanResponderEnd s) = trace s ++ l ++ [onSeekEnd_call])
  /\ (gt (step (props s)) (num 0) = true ->
      get_x (handlePanResponderEnd s)
      = getXForValue s (getRoundedValue (props s) (getValueForX s (get_x s))))
  /\ handlePanResponderMove gesture_dx s = s
  /\ handleTrackPress locationX s = s.
Proof.
  intro D. repeat split.
  - destruct (bounceToStep_extends s) as [l E]. exists l.
    unfold handlePanResponderEnd, onSeekEnd. cbn. rewrite E, app_assoc.
    reflexivity.
  - intro G. rewrite <- (bounceToStep_get_x s G).
    unfold handlePanResponderEnd, onSeekEnd, get_x, isDefaultThumbActive.
    reflexivity.
  - unfold handlePanResponderMove. rewrite D. reflexivity.
  - unfold handleTrackPress. rewrite D. reflexivity.
Qed.

(** Witness of [seek_callbacks_when_disabled]: the stepped slider, disabled,
    with its thumb at the offset 23. *)
Lemma seek_callbacks_when_disabled_witness :
  trace (handlePanResponderEnd
           (with_x (num 23)
              (measuredSlider
                 (mkProps (num 0) (num 0) (num 1) (num 0) (num 100) (num 10)
                    true false false false) 100 24)))
  = trace (bounceToStep
             (with_x (num 23)
                (measuredSlider
                   (mkProps (num 0) (num 0) (num 1) (num 0) (num 100) (num 10)
                      true false false false) 100 24)))
    ++ [onSeekEnd_call].
Proof.
  apply (seek_callbacks_when_disabled
           (with_x (num 23)
              (measuredSlider
                 (mkProps (num 0) (num 0) (num 1) (num 0) (num 100) (num 10)
                    true false false false) 100 24))
           (num 5) (num 5)).
  vm_compute; reflexivity.
Defined.

(** * Orientation change and re-measurement *)

(** C8 fails on the range slider: [onOrientationChanged] keeps the last
    committed values as the initial values, and yet the orientation change
    alone, and the re-measurement on a track of 200 that follows it, commit
    another primary value and call [onRangeChange] with it. *)
Lemma range_remeasurement_changes_value :
  seq (lastValue
         (run [OrientationChanged;
               ContainerLayout (mkMeasurements (num 200) (num 28));
               TrackLayout (mkMeasurements (num 200) (num 6))] rangeSlider))
      (lastValue rangeSlider) = false
  /\ seq (lastValue (onOrientationChanged rangeSlider)) (lastValue rangeSlider)
     = false
  /\ length (trace (onOrientationChanged rangeSlider))
     = S (length (trace rangeSlider)).
Proof. by_evaluation. Qed.

(** * Release on a stepped slider *)

(** C4, as it holds: on a single-value slider over [0 .. 100] in steps of
    ten, the release of a drag moves the offset to that of the stepped
    value [getValueForX] reads at the offset of the release, commits
    nothing and calls [onSeekEnd] only, not [onValueChange]; the value of
    the offset is what each move of the drag has already passed to
    [onValueChange], and it is never 23; on a track at least one pixel and
    at least seven thumb widths long, the offset of the value 23 has the
    value 20 and the release moves it to the offset of 20. *)
Theorem release_snaps_to_step (s : Slider) :
  useRange (props s) = false ->
  isDefaultThumbActive s = true ->
  minimumValue (props s) = Fin 0 ->
  maximumValue (props s) = Fin 100 ->
  step (props s) = Fin 10 ->
  _x (handlePanResponderEnd s)
  = getXForValue s (getRoundedValue (props s) (getValueForX s (_x s)))
  /\ lastValue (handlePanResponderEnd s) = lastValue s
  /\ trace (handlePanResponderEnd s) = trace s ++ [onSeekEnd_call]
  /\ (forall g : number,
         disabled (props s) = false ->
         lastValue (handlePanResponderMove g s)
         = getValueForX s (_x (handlePanResponderMove g s))
         /\ trace (handlePanResponderMove g s)
            = trace s
              ++ [onValueChange_call (lastValue (handlePanResponderMove g s))])
  /\ (forall x : number, seq (getValueForX s x) (num 23) = false)
  /\ (forall w t : Q,
         width (st_trackSize (state s)) = Fin w ->
         width (initialThumbSize s) = Fin t ->
         1 <= w -> 0 <= t -> 7 * t <= w ->
         seq (_x s) (getXForValue s (num 23)) = true ->
         seq (getValueForX s (_x s)) (num 20) = true
         /\ seq (_x (handlePanResponderEnd s)) (getXForValue s (num 20)) = true).
Proof.
  intros U A Hmin Hmax Hstep.
  assert (G : gt (step (props s)) (num 0) = true)
    by (rewrite Hstep; reflexivity).
  destruct (handlePanResponderEnd_single s U A G) as [E [L Tr]].
  split; [ exact E | ]. split; [ exact L | ]. split; [ exact Tr | ].
  split; [ intros g D; exact (handlePanResponderMove_single g s U A D) | ].
  split.
  { intro x. unfold getValueForX. cbv zeta. rewrite Hstep, Hmin, Hmax.
    change (truthy (Fin 10)) with true. cbv iota.
    apply stepped_value_never_23. }
  intros w t Hw Ht W1 T0 T7 X23.
  assert (TW : 25 * t < 4 * w) by lra.
  assert (R : 0 < reach w t).
  { unfold reach. assert (t / 2 == (1 # 2) * t) by field. lra. }
  assert (NR : ~ reach w t == 0) by lra.
  assert (NS : ~ 10 == 0) by lra.
  assert (B : 0 <= 100) by lra.
  (* the offset of 23 and its value *)
  destruct (getXForValue_Fin s 0 100 w 23 Hmin Hmax Hw ltac:(lra) ltac:(lra))
    as [x' [X' EX']].
  change (Fin 23) with (num 23) in X'. rewrite X' in X23.
  destruct (_x s) as [ | | x | ] eqn:X; try discriminate X23.
  apply seq_Fin in X23.
  assert (EX : x == (23 - 0) / (100 - 0) * w) by (rewrite X23; exact EX').
  clear x' X' EX' X23.
  assert (Q2 : roundQ (x / reach w t * (100 - 0) / 10) == inject_Z 2).
  { assert (F : x / reach w t * (100 - 0) / 10 == (23 # 10) * w / reach w t).
    { rewrite EX. field. exact NR. }
    rewrite (roundQ_compat _ _ F).
    apply roundQ_eq.
    - apply Qle_shift_div_l; [ exact R | ].
      change (inject_Z 2) with 2. unfold reach.
      assert (t / 2 == (1 # 2) * t) by field. lra.
    - apply Qlt_shift_div_r; [ exact R | ].
      change (inject_Z 2) with 2. unfold reach.
      assert (t / 2 == (1 # 2) * t) by field. lra. }
  assert (V : exists r, getValueForX s (Fin x) = Fin r /\ r == 20).
  { rewrite (getValueForX_stepped s 0 100 10 w t Hmin Hmax Hstep Hw Ht x NR NS).
    destruct (clamp_Fin 0 100
                (0 + roundQ (x / reach w t * (100 - 0) / 10) * 10) B)
      as [r [Er [_ [_ [_ M]]]]].
    exists r. split; [ exact Er | ].
    rewrite M; rewrite Q2; change (inject_Z 2) with 2; lra. }
  destruct V as [r [V Er]].
  (* its stepped value and the offset of that *)
  assert (Ir : 0 <= r <= 100) by lra.
  destruct (getValueInRange_clamps (props s) 0 100 (Fin r) Hmin Hmax B eq_refl)
    as [c [C [_ F]]].
  rewrite (F r eq_refl Ir) in C.
  assert (RV := getRoundedValue_stepped (props s) 10 r (Fin r) Hstep
                  ltac:(lra) C).
  assert (Q3 : roundQ (r / 10) * 10 == 20).
  { assert (F2 : r / 10 == inject_Z 2)
      by (rewrite Er; reflexivity).
    rewrite (roundQ_compat _ _ F2), roundQ_inject_Z. reflexivity. }
  destruct (getXForValue_Fin s 0 100 w (roundQ (r / 10) * 10) Hmin Hmax Hw
              ltac:(lra) ltac:(lra)) as [xa [Xa Ea]].
  destruct (getXForValue_Fin s 0 100 w 20 Hmin Hmax Hw ltac:(lra) ltac:(lra))
    as [xb [Xb Eb]].
  change (Fin 20) with (num 20) in Xb.
  split; [ rewrite V; apply seq_Fin; exact Er | ].
  rewrite E, V, RV, Xa, Xb. apply seq_Fin. rewrite Ea, Eb, Q3. reflexivity.
Qed.

(** Witness of [release_snaps_to_step]: the wide slider held at the offset
    230. *)
Lemma release_snaps_to_step_witness :
  seq (_x (handlePanResponderEnd (heldAt 230 wideSlider)))
      (getXForValue (heldAt 230 wideSlider) (num 20)) = true
  /\ trace (handlePanResponderEnd (heldAt 230 wideSlider))
     = trace (heldAt 230 wideSlider) ++ [onSeekEnd_call].
Proof.
  destruct (release_snaps_to_step (heldAt 230 wideSlider))
    as [_ [_ [B [_ [_ M]]]]]; try (vm_compute; reflexivity).
  destruct (M 1000 24) as [_ A]; try (vm_compute; reflexivity); try lra.
  split; [ exact A | exact B ].
Defined.

(** C4 as stated fails: on the stepped slider, whose track is 100 under a
    thumb of 24, the release of a drag held at the offset of the value 23
    moves the offset to that of the value 30, not 20; and on every slider,
    the wide one included, the release calls [onSeekEnd] alone, the last
    call of [onValueChange] being that of the drag. *)
Lemma release_reports_nothing :
  seq (_x (heldAt 23 steppedSlider)) (getXForValue steppedSlider (num 23)) = true
  /\ seq (_x (handlePanResponderEnd (heldAt 23 steppedSlider)))
         (getXForValue steppedSlider (num 20)) = false
  /\ seq (_x (handlePanResponderEnd (heldAt 23 steppedSlider)))
         (getXForValue steppedSlider (num 30)) = true
  /\ trace (handlePanResponderEnd (heldAt 23 steppedSlider))
     = trace (heldAt 23 steppedSlider) ++ [onSeekEnd_call]
  /\ seq (_x (heldAt 230 wideSlider)) (getXForValue wideSlider (num 23)) = true
  /\ trace (handlePanResponderEnd (heldAt 230 wideSlider))
     = trace (heldAt 230 wideSlider) ++ [onSeekEnd_call].
Proof. by_evaluation. Qed.

(** * Accessibility actions *)

(** C5 fails away from the ends of the range: on the stepped slider held
    at the offset 44 the value is 50 and the step is 10; an increment
    computes and announces 60, one step more, and commits 70, two steps
    more, which it passes to [onValueChange]. *)
Lemma increment_adds_two_steps :
  seq (getValueForX (heldAt 44 steppedSlider) (_x (heldAt 44 steppedSlider)))
      (num 50) = true
  /\ seq (lastValue (heldAt 44 steppedSlider)) (num 50) = true
  /\ seq (accessibilityNewValue (heldAt 44 steppedSlider) increment) (num 60)
     = true
  /\ seq (lastValue (onAccessibilityAction increment (heldAt 44 steppedSlider)))
         (num 60) = false
  /\ seq (lastValue (onAccessibilityAction increment (heldAt 44 steppedSlider)))
         (num 70) = true
  /\ trace (onAccessibilityAction increment (heldAt 44 steppedSlider))
     = trace (heldAt 44 steppedSlider)
       ++ [onValueChange_call
             (lastValue (onAccessibilityAction increment
                           (heldAt 44 steppedSlider)));
           announceForAccessibility
             (accessibilityNewValue (heldAt 44 steppedSlider) increment)].
Proof. by_evaluation. Qed.

(** C10 fails in its conclusion: on the continuous slider, whose step is 0,
    held at the offset 44, the value is one half; an increment computes and
    announces one half as the new value and commits a value above 0.56,
    which it passes to [onValueChange]. *)
Lemma action_without_step_changes_value :
  seq (step (props continuousSlider)) (num 0) = true
  /\ seq (lastValue (heldAt 44 continuousSlider)) (Fin (1 # 2)) = true
  /\ seq (getValueForX (heldAt 44 continuousSlider)
            (_x (heldAt 44 continuousSlider))) (Fin (1 # 2)) = true
  /\ seq (accessibilityNewValue (heldAt 44 continuousSlider) increment)
         (Fin (1 # 2)) = true
  /\ seq (lastValue (onAccessibilityAction increment (heldAt 44 continuousSlider)))
         (Fin (1 # 2)) = false
  /\ lt (Fin (56 # 100))
        (lastValue (onAccessibilityAction increment (heldAt 44 continuousSlider)))
     = true
  /\ trace (onAccessibilityAction increment (heldAt 44 continuousSlider))
     = trace (heldAt 44 continuousSlider)
       ++ [onValueChange_call
             (lastValue (onAccessibilityAction increment
                           (heldAt 44 continuousSlider)));
           announceForAccessibility
             (accessibilityNewValue (heldAt 44 continuousSlider) increment)].
Proof. by_evaluation. Qed.

(** * Further properties of the conversions *)








(** * Further properties of the component *)

Ltac setting_auto :=
  cbv zeta; repeat break_if; unfold sameSetting; cbn; repeat split; reflexivity.

Lemma sameSetting_refl s : sameSetting s s.
Proof. unfold sameSetting. repeat split. Qed.

Lemma sameSetting_trans s1 s2 s3 :
  sameSetting s1 s2 -> sameSetting s2 s3 -> sameSetting s1 s3.
Proof.
  unfold sameSetting.
  intros [A1 [A2 [A3 [A4 [A5 [A6 [A7 [A8 [A9 [A10 A11]]]]]]]]]]
         [B1 [B2 [B3 [B4 [B5 [B6 [B7 [B8 [B9 [B10 B11]]]]]]]]]].
  rewrite B1, B2, B3, B4, B5, B6, B7, B8, B9, B10, B11.
  repeat split; assumption.
Qed.

Lemma set_x_setting x s : sameSetting s (set_x x s).
Proof. unfold set_x. setting_auto. Qed.

Lemma updateValue_setting x s : sameSetting s (updateValue x s).
Proof. unfold updateValue, onRangeChange, onValueChange. setting_auto. Qed.

Lemma moveTo_setting x s : sameSetting s (moveTo x s).
Proof.
  unfold moveTo, moveMinTo, updateValue, onRangeChange, onValueChange.
  setting_auto.
Qed.

Lemma updateValue_active x s :
  activeThumbRef (updateValue x s) = activeThumbRef s
  /\ _x (updateValue x s) = _x s /\ _x_min (updateValue x s) = _x_min s
  /\ thumbStyles_left (updateValue x s) = thumbStyles_left s
  /\ minThumbStyles_left (updateValue x s) = minThumbStyles_left s
  /\ minTrackStyles_width (updateValue x s) = minTrackStyles_width s
  /\ minTrackStyles_left (updateValue x s) = minTrackStyles_left s
  /\ lastDx (updateValue x s) = lastDx s.
Proof.
  unfold updateValue, onRangeChange, onValueChange. cbv zeta.
  repeat break_if; cbn; repeat split; reflexivity.
Qed.

Lemma update_setting dx s : sameSetting s (update dx s).
Proof.
  unfold update. cbv zeta.
  match goal with
  | |- context [moveTo ?x (set_x ?x s)] =>
      assert (A := set_x_setting x s); assert (B := moveTo_setting x (set_x x s));
      assert (C := updateValue_setting x (moveTo x (set_x x s)))
  end.
  break_if.
  - exact (sameSetting_trans _ _ _ (sameSetting_trans _ _ _ A B) C).
  - exact (sameSetting_trans _ _ _ A B).
Qed.

Lemma update_active dx s :
  activeThumbRef (update dx s) = activeThumbRef s
  /\ get_x (update dx s) = updatedOffset dx s.
Proof.
  unfold update. cbv zeta. fold (updatedOffset dx s).
  set (x := updatedOffset dx s).
  destruct (moveTo_core x (set_x x s)) as [_ [_ [A [X [M _]]]]].
  assert (G : get_x (moveTo x (set_x x s)) = x)
    by (rewrite (get_x_core _ _ (moveTo_core x (set_x x s))); apply get_set_x).
  assert (A0 : activeThumbRef (set_x x s) = activeThumbRef s)
    by (unfold set_x; destruct (isDefaultThumbActive s); reflexivity).
  break_if.
  - destruct (updateValue_active x (moveTo x (set_x x s))) as [A' [X' [M' _]]].
    split; [ rewrite A', A, A0; reflexivity | ].
    unfold get_x, isDefaultThumbActive in *. rewrite A', X', M'. exact G.
  - split; [ rewrite A, A0; reflexivity | exact G ].
Qed.

(** The offset [update] stores, for finite operands, lies on the track. *)
Lemma updatedOffset_on_track (s : Slider) (w x d : Q) :
  width (st_trackSize (state s)) = Fin w ->
  0 <= w -> get_x s = Fin x ->
  exists x', updatedOffset (Fin d) s = Fin x' /\ 0 <= x' <= w
             /\ (0 <= x + d <= w -> x' == x + d).
Proof.
  intros Hw W X. unfold updatedOffset. rewrite X, Hw. cbn [add].
  destruct (min_Fin (x + d) w) as [a [Ea [A1 [A2 A3]]]].
  destruct (max_Fin a 0) as [b [Eb [B1 [B2 B3]]]].
  exists b. rewrite Ea. change (num 0) with (Fin 0). rewrite Eb.
  split; [ reflexivity | ]. split.
  - destruct A3, B3; lra.
  - intro I. destruct A3, B3; lra.
Qed.

Lemma moveTo_single_styles x s :
  useRange (props s) = false -> isDefaultThumbActive s = true ->
  thumb_current s = true ->
  thumbStyles_left (moveTo x s)
  = Some (leftFor s (if shouldForceLTR s
                     then sub (width (st_trackSize (state s))) x else x))
  /\ minTrackStyles_width (moveTo x s)
     = Some (min (width (st_trackSize (state s))) x).
Proof.
  intros U A T. unfold moveTo. rewrite A, T, U. cbv zeta. split; reflexivity.
Qed.

(** X5: a move by a finite distance leaves the active offset on the track,
    between 0 and the track width; on a single-value slider it restyles
    the thumb at [leftFor] of that offset, mirrored when the layout is
    forced left-to-right, and gives the filled segment the width of the
    offset. *)
Theorem update_stays_on_track (s : Slider) (w x d : Q) :
  width (st_trackSize (state s)) = Fin w ->
  0 <= w ->
  get_x s = Fin x ->
  exists x' : Q,
    get_x (update (Fin d) s) = Fin x'
    /\ 0 <= x' <= w
    /\ (useRange (props s) = false -> isDefaultThumbActive s = true ->
        thumb_current s = true ->
        thumbStyles_left (update (Fin d) s)
        = Some (leftFor s (if shouldForceLTR s
                           then sub (Fin w) (Fin x') else Fin x'))
        /\ exists m : Q,
             minTrackStyles_width (update (Fin d) s) = Some (Fin m)
             /\ m == x').
Proof.
  intros Hw W X.
  destruct (updatedOffset_on_track s w x d Hw W X) as [x' [E [I _]]].
  exists x'. destruct (update_active (Fin d) s) as [_ G].
  split; [ rewrite G; exact E | ]. split; [ exact I | ].
  intros U A C.
  unfold update. cbv zeta. fold (updatedOffset (Fin d) s). rewrite E.
  destruct (moveTo_setting (Fin x') (set_x (Fin x') s)) as [P _].
  rewrite P, props_set_x, U. cbn [negb].
  destruct (updateValue_active (Fin x') (moveTo (Fin x') (set_x (Fin x') s)))
    as [_ [_ [_ [L [_ [Wd _]]]]]].
  rewrite L, Wd.
  destruct (moveTo_single_styles (Fin x') (set_x (Fin x') s)) as [L1 W1].
  { rewrite props_set_x; exact U. }
  { rewrite isDefaultThumbActive_set_x; exact A. }
  { unfold set_x. rewrite A. exact C. }
  rewrite L1, W1.
  assert (S1 : set_x (Fin x') s = with_x (Fin x') s)
    by (unfold set_x; rewrite A; reflexivity).
  rewrite S1. cbn [state with_x shouldForceLTR].
  change (leftFor (with_x (Fin x') s)) with (leftFor s).
  rewrite Hw. split; [ reflexivity | ].
  destruct (min_Fin w x') as [m [Em [M1 [M2 M3]]]].
  exists m. split; [ rewrite Em; reflexivity | destruct M3; lra ].
Qed.

(** Witness of [update_stays_on_track]: the stepped slider moved by 250,
    more than its track. *)
Lemma update_stays_on_track_witness :
  exists x' : Q,
    get_x (update (Fin 250) steppedSlider) = Fin x'
    /\ 0 <= x' <= 100
    /\ (useRange (props steppedSlider) = false ->
        isDefaultThumbActive steppedSlider = true ->
        thumb_current steppedSlider = true ->
        thumbStyles_left (update (Fin 250) steppedSlider)
        = Some (leftFor steppedSlider
                  (if shouldForceLTR steppedSlider
                   then sub (Fin 100) (Fin x') else Fin x'))
        /\ exists m : Q,
             minTrackStyles_width (update (Fin 250) steppedSlider)
             = Some (Fin m)
             /\ m == x').
Proof.
  apply (update_stays_on_track steppedSlider 100 (0 # 100) 250);
    try (vm_compute; reflexivity); try lra.
Defined.

(** * Gestures *)

Lemma run_app es1 es2 s : run (es1 ++ es2) s = run es2 (run es1 s).
Proof. unfold run. apply fold_left_app. Qed.

Lemma bounceToStep_single s :
  useRange (props s) = false -> isDefaultThumbActive s = true ->
  trace (bounceToStep s) = trace s
  /\ lastValue (bounceToStep s) = lastValue s
  /\ isDefaultThumbActive (bounceToStep s) = true
  /\ props (bounceToStep s) = props s.
Proof.
  intros U A. unfold bounceToStep. break_if; [ | repeat split; assumption ].
  cbv zeta.
  match goal with
  | |- context [moveTo ?x ?s'] =>
      assert (K := isDefaultThumbActive_core _ _ (moveTo_core x s'));
      destruct (moveTo_core x s') as [P _];
      destruct (moveTo_single x s') as [T L]
  end.
  - rewrite props_set_x. exact U.
  - rewrite isDefaultThumbActive_set_x. exact A.
  - rewrite K, T, L, P, isDefaultThumbActive_set_x, set_x_trace,
      lastValue_set_x, props_set_x.
    repeat split. exact A.
Qed.

Lemma last_cons_default (A : Type) (a : A) (l : list A) (d d' : A) :
  last (a :: l) d = last (a :: l) d'.
Proof.
  revert a. induction l as [ | b l IH ]; intro a; [ reflexivity | ].
  change (last (b :: l) d = last (b :: l) d'). apply IH.
Qed.

(** The moves of a gesture on an enabled single-value slider: one call of
    [onValueChange] each. *)
Lemma moves_report (gs : list number) :
  forall s : Slider,
    useRange (props s) = false -> isDefaultThumbActive s = true ->
    disabled (props s) = false ->
    exists vs : list number,
      trace (run (map PanResponderMove gs) s)
      = trace s ++ map onValueChange_call vs
      /\ length vs = length gs
      /\ lastValue (run (map PanResponderMove gs) s) = last vs (lastValue s)
      /\ useRange (props (run (map PanResponderMove gs) s)) = false
      /\ isDefaultThumbActive (run (map PanResponderMove gs) s) = true.
Proof.
  induction gs as [ | g gs IH ]; intros s U A D.
  - exists []. cbn. rewrite app_nil_r. repeat split; assumption.
  - cbn [map run fold_left handle].
    destruct (handlePanResponderMove_single g s U A D) as [L T].
    assert (S : props (handlePanResponderMove g s) = props s
                /\ activeThumbRef (handlePanResponderMove g s) = activeThumbRef s).
    { unfold handlePanResponderMove. rewrite D. cbv zeta.
      match goal with
      | |- context [update ?dx s] =>
          destruct (update_setting dx s) as [P _];
          destruct (update_active dx s) as [Act _]
      end.
      cbn. split; assumption. }
    destruct S as [P Act].
    destruct (IH (handlePanResponderMove g s)) as [vs [T' [Len [L' [U' A']]]]].
    + rewrite P. exact U.
    + unfold isDefaultThumbActive in *. rewrite Act. exact A.
    + rewrite P. exact D.
    + exists (lastValue (handlePanResponderMove g s) :: vs).
      change (fold_left (fun acc e => handle e acc) (map PanResponderMove gs)
                (handlePanResponderMove g s))
        with (run (map PanResponderMove gs) (handlePanResponderMove g s)).
      rewrite T', T, <- app_assoc. cbn [map app length].
      repeat split; try assumption.
      * rewrite Len. reflexivity.
      * rewrite L'. destruct vs as [ | n vs ]; [ reflexivity | ].
        change (last (lastValue (handlePanResponderMove g s) :: n :: vs)
                  (lastValue s))
          with (last (n :: vs) (lastValue s)).
        apply last_cons_default.
Qed.

(** X7: a gesture on an enabled single-value slider calls [onSeekStart]
    once, then [onValueChange] once for every move, then [onSeekEnd] once,
    in this order and nothing else; the value committed at the end is the
    one of the last call of [onValueChange]. *)
Theorem gesture_calls (s : Slider) (gs : list number) :
  useRange (props s) = false ->
  isDefaultThumbActive s = true ->
  disabled (props s) = false ->
  exists vs : list number,
    trace (run (PanResponderGrant
                :: map PanResponderMove gs ++ [PanResponderRelease]) s)
    = trace s ++ [onSeekStart_call] ++ map onValueChange_call vs
      ++ [onSeekEnd_call]
    /\ length vs = length gs
    /\ lastValue (run (PanResponderGrant
                       :: map PanResponderMove gs ++ [PanResponderRelease]) s)
       = last vs (lastValue s).
Proof.
  intros U A D.
  change (run (PanResponderGrant
               :: map PanResponderMove gs ++ [PanResponderRelease]) s)
    with (run (map PanResponderMove gs ++ [PanResponderRelease])
            (handlePanResponderGrant s)).
  rewrite run_app.
  destruct (moves_report gs (handlePanResponderGrant s) U A D)
    as [vs [T [Len [L [U' A']]]]].
  exists vs. cbn [run fold_left handle].
  set (m := run (map PanResponderMove gs) (handlePanResponderGrant s)) in *.
  destruct (bounceToStep_single m U' A') as [Tb [Lb _]].
  unfold handlePanResponderEnd, onSeekEnd. cbn [trace lastValue call].
  rewrite Tb, Lb, T, L. cbn [trace handlePanResponderGrant onSeekStart call
                              with_lastDx lastValue].
  rewrite <- !app_assoc. repeat split. exact Len.
Qed.

(** Witness of [gesture_calls]: three moves on the stepped slider. *)
Lemma gesture_calls_witness :
  exists vs : list number,
    trace (run (PanResponderGrant
                :: map PanResponderMove [num 10; num 30; num 44]
                   ++ [PanResponderRelease]) steppedSlider)
    = trace steppedSlider ++ [onSeekStart_call] ++ map onValueChange_call vs
      ++ [onSeekEnd_call]
    /\ length vs = length [num 10; num 30; num 44]
    /\ lastValue (run (PanResponderGrant
                       :: map PanResponderMove [num 10; num 30; num 44]
                          ++ [PanResponderRelease]) steppedSlider)
       = last vs (lastValue steppedSlider).
Proof.
  apply (gesture_calls steppedSlider [num 10; num 30; num 44]);
    vm_compute; reflexivity.
Defined.

(** X8: a press on the track of an enabled single-value slider calls
    [onSeekStart], then [onValueChange] once with the value of the pressed
    position, mirrored in a right-to-left layout, then [onSeekEnd]; that
    value is committed. *)
Theorem track_press_calls (s : Slider) (locationX : number) :
  useRange (props s) = false ->
  isDefaultThumbActive s = true ->
  disabled (props s) = false ->
  trace (handleTrackPress locationX s)
  = trace s
    ++ [onSeekStart_call;
        onValueChange_call
          (getValueForX s
             (if isRTL (props s) && negb (disableRTL (props s))
              then sub (width (st_trackSize (state s))) locationX
              else locationX));
        onSeekEnd_call]
  /\ lastValue (handleTrackPress locationX s)
     = getValueForX s
         (if isRTL (props s) && negb (disableRTL (props s))
          then sub (width (st_trackSize (state s))) locationX
          else locationX).
Proof.
  intros U A D. unfold handleTrackPress. rewrite D.
  unfold updateTrackStepAndStyle. cbv zeta.
  cbn [props onSeekStart call state].
  rewrite U. cbn [negb].
  set (newX := if isRTL (props s) && negb (disableRTL (props s))
               then sub (width (st_trackSize (state s))) locationX
               else locationX).
  set (s0 := onSeekStart s).
  assert (A0 : isDefaultThumbActive s0 = true) by exact A.
  assert (S2 : set_x newX s0 = with_x newX s0)
    by (unfold set_x; rewrite A0; reflexivity).
  rewrite S2.
  assert (G2 : get_x (with_x newX s0) = newX)
    by (unfold get_x, isDefaultThumbActive in *; cbn; rewrite A; reflexivity).
  rewrite G2.
  set (s3 := updateValue newX (with_x newX s0)).
  assert (E3 : s3 = onValueChange (getValueForX s newX) (with_x newX s0)).
  { unfold s3, updateValue. cbn [props with_x]. unfold s0, onSeekStart.
    cbn [props call]. rewrite U. reflexivity. }
  assert (U3 : useRange (props s3) = false) by (rewrite E3; exact U).
  assert (A3 : isDefaultThumbActive s3 = true) by (rewrite E3; exact A).
  assert (T3 : trace s3
               = trace s ++ [onSeekStart_call;
                             onValueChange_call (getValueForX s newX)]).
  { rewrite E3. cbn. rewrite <- app_assoc. reflexivity. }
  assert (L3 : lastValue s3 = getValueForX s newX) by (rewrite E3; reflexivity).
  break_if.
  - destruct (bounceToStep_single s3 U3 A3) as [Tb [Lb _]].
    unfold onSeekEnd. cbn [trace lastValue call].
    rewrite Tb, Lb, T3, L3, <- app_assoc. split; reflexivity.
  - destruct (moveTo_single (get_x s3) s3 U3 A3) as [Tm Lm].
    unfold onSeekEnd. cbn [trace lastValue call].
    rewrite Tm, Lm, T3, L3, <- app_assoc. split; reflexivity.
Qed.

(** Witness of [track_press_calls]: a press at 44 on the stepped slider. *)
Lemma track_press_calls_witness :
  lastValue (handleTrackPress (num 44) steppedSlider)
  = getValueForX steppedSlider
      (if isRTL (props steppedSlider) && negb (disableRTL (props steppedSlider))
       then sub (width (st_trackSize (state steppedSlider))) (num 44)
       else num 44).
Proof.
  apply (track_press_calls steppedSlider (num 44)); vm_compute; reflexivity.
Defined.

(** * The committed value is the reported value *)

Lemma lastReported_app_value (t : list Call) (v d : number) :
  lastReported (t ++ [onValueChange_call v]) d = v.
Proof.
  revert d. induction t as [ | c t IH ]; intro d; [ reflexivity | ].
  destruct c; cbn; apply IH.
Qed.

Lemma lastReported_app_other (t : list Call) (c : Call) (d : number) :
  (forall v, c <> onValueChange_call v) ->
  lastReported (t ++ [c]) d = lastReported t d.
Proof.
  intro N. revert d. induction t as [ | c' t IH ]; intro d.
  - destruct c; try reflexivity. exfalso. exact (N v eq_refl).
  - destruct c'; cbn; apply IH.
Qed.

Create HintDb slider_reports.

Section Reports.

Variable d : number.

Lemma reportsCommitted_frame (s s' : Slider) :
  props s' = props s -> lastValue s' = lastValue s -> trace s' = trace s ->
  reportsCommitted d s -> reportsCommitted d s'.
Proof. unfold reportsCommitted. intros -> -> ->. exact (fun H => H). Qed.

Ltac frame_reports :=
  intro; eapply reportsCommitted_frame; [ | | | eassumption ]; reflexivity.

Lemma with_x_reports x s : reportsCommitted d s -> reportsCommitted d (with_x x s).
Proof. frame_reports. Qed.

Lemma with_x_min_reports x s :
  reportsCommitted d s -> reportsCommitted d (with_x_min x s).
Proof. frame_reports. Qed.

Lemma with_lastDx_reports x s :
  reportsCommitted d s -> reportsCommitted d (with_lastDx x s).
Proof. frame_reports. Qed.

Lemma with_lastMinValue_reports x s :
  reportsCommitted d s -> reportsCommitted d (with_lastMinValue x s).
Proof. frame_reports. Qed.

Lemma with_initialValue_reports x s :
  reportsCommitted d s -> reportsCommitted d (with_initialValue x s).
Proof. frame_reports. Qed.

Lemma with_minInitialValue_reports x s :
  reportsCommitted d s -> reportsCommitted d (with_minInitialValue x s).
Proof. frame_reports. Qed.

Lemma with_initialThumbSize_reports x s :
  reportsCommitted d s -> reportsCommitted d (with_initialThumbSize x s).
Proof. frame_reports. Qed.

Lemma with_state_reports x s :
  reportsCommitted d s -> reportsCommitted d (with_state x s).
Proof. frame_reports. Qed.

Lemma with_sizes_reports a b c s :
  reportsCommitted d s -> reportsCommitted d (with_sizes a b c s).
Proof. frame_reports. Qed.

Lemma with_thumbStyles_left_reports x s :
  reportsCommitted d s -> reportsCommitted d (with_thumbStyles_left x s).
Proof. frame_reports. Qed.

Lemma with_minThumbStyles_left_reports x s :
  reportsCommitted d s -> reportsCommitted d (with_minThumbStyles_left x s).
Proof. frame_reports. Qed.

Lemma with_minTrackStyles_width_reports x s :
  reportsCommitted d s -> reportsCommitted d (with_minTrackStyles_width x s).
Proof. frame_reports. Qed.

Lemma with_minTrackStyles_left_reports x s :
  reportsCommitted d s -> reportsCommitted d (with_minTrackStyles_left x s).
Proof. frame_reports. Qed.

Lemma setActiveThumb_reports r s :
  reportsCommitted d s -> reportsCommitted d (setActiveThumb r s).
Proof. frame_reports. Qed.

Lemma set_x_reports x s : reportsCommitted d s -> reportsCommitted d (set_x x s).
Proof.
  intro H. unfold set_x. destruct (isDefaultThumbActive s);
    [ apply with_x_reports | apply with_x_min_reports ]; exact H.
Qed.

(** A call that is not [onValueChange] changes nothing to the report. *)
Lemma call_reports c s :
  (forall v, c <> onValueChange_call v) ->
  reportsCommitted d s -> reportsCommitted d (call c s).
Proof.
  intros N [U L]. split; [ exact U | ].
  cbn. rewrite (lastReported_app_other _ _ _ N). exact L.
Qed.

(** On a single-value slider [updateValue] commits what it reports,
    whatever was committed before. *)
Lemma updateValue_reports x s :
  useRange (props s) = false -> reportsCommitted d (updateValue x s).
Proof.
  intro U. unfold updateValue. rewrite U. unfold onValueChange.
  split; [ exact U | ]. cbn. rewrite lastReported_app_value. reflexivity.
Qed.

Hint Resolve with_x_reports with_x_min_reports with_lastDx_reports
  with_lastMinValue_reports with_initialValue_reports
  with_minInitialValue_reports with_initialThumbSize_reports
  with_state_reports with_sizes_reports with_thumbStyles_left_reports
  with_minThumbStyles_left_reports with_minTrackStyles_width_reports
  with_minTrackStyles_left_reports setActiveThumb_reports set_x_reports
  : slider_reports.

Lemma moveTo_reports x s : reportsCommitted d s -> reportsCommitted d (moveTo x s).
Proof.
  intro H. assert (U := proj1 H). unfold moveTo, moveMinTo. rewrite U.
  cbv zeta. repeat break_if; auto with slider_reports;
    apply updateValue_reports; exact U.
Qed.

Lemma update_reports dx s :
  useRange (props s) = false -> reportsCommitted d (update dx s).
Proof.
  intro U. unfold update. cbv zeta.
  match goal with
  | |- context [moveTo ?x (set_x ?x s)] =>
      destruct (moveTo_setting x (set_x x s)) as [P _]
  end.
  rewrite P, props_set_x, U. cbn [negb].
  apply updateValue_reports. rewrite P, props_set_x. exact U.
Qed.

Lemma bounceToStep_reports s :
  reportsCommitted d s -> reportsCommitted d (bounceToStep s).
Proof.
  intro H. unfold bounceToStep. cbv zeta. break_if; [ | exact H ].
  apply moveTo_reports, set_x_reports, H.
Qed.

Hint Resolve moveTo_reports bounceToStep_reports : slider_reports.

Lemma props_setActiveThumb r s : props (setActiveThumb r s) = props s.
Proof. reflexivity. Qed.

Lemma props_update dx s : props (update dx s) = props s.
Proof. exact (proj1 (update_setting dx s)). Qed.

Lemma reset_reports s : reportsCommitted d s -> reportsCommitted d (reset s).
Proof.
  intros [U _]. unfold reset. cbv zeta. apply update_reports.
  rewrite props_set_x, props_setActiveThumb, props_update, props_set_x,
    props_setActiveThumb.
  exact U.
Qed.

Lemma componentDidUpdate_reports pp ps s :
  reportsCommitted d s -> reportsCommitted d (componentDidUpdate pp ps s).
Proof.
  intro H. unfold componentDidUpdate. cbv zeta.
  repeat break_if; auto 20 with slider_reports.
Qed.

Hint Resolve componentDidUpdate_reports : slider_reports.

Lemma setState_measureCompleted_reports b s :
  reportsCommitted d s -> reportsCommitted d (setState_measureCompleted b s).
Proof.
  intro H. unfold setState_measureCompleted. cbv zeta.
  break_if; auto with slider_reports.
Qed.

Lemma setState_sizes_reports a b c s :
  reportsCommitted d s -> reportsCommitted d (setState_sizes a b c s).
Proof. intro H. unfold setState_sizes. cbv zeta. auto with slider_reports. Qed.

Hint Resolve setState_measureCompleted_reports setState_sizes_reports
  : slider_reports.

Lemma handleMeasure_reports name l s :
  reportsCommitted d s -> reportsCommitted d (handleMeasure name l s).
Proof.
  intro H. unfold handleMeasure. cbv zeta.
  destruct (match measured name s with Some _ => _ | None => false end);
    [ exact H | ].
  assert (M : reportsCommitted d (set_measured name
                                    (mkMeasurements (width l) (height l)) s)).
  { destruct name; cbn [set_measured]; auto with slider_reports. }
  destruct (containerSize _); [ | exact M ].
  destruct (thumbSize _); [ | exact M ].
  destruct (trackSize _); [ | exact M ].
  auto with slider_reports.
Qed.

Lemma handle_reports e s : reportsCommitted d s -> reportsCommitted d (handle e s).
Proof.
  intro H. assert (U := proj1 H). destruct e; cbn [handle].
  - apply handleMeasure_reports, H.
  - apply handleMeasure_reports, setState_measureCompleted_reports, H.
  - apply handleMeasure_reports, H.
  - unfold onOrientationChanged. cbv zeta. auto with slider_reports.
  - apply setActiveThumb_reports, H.
  - apply setActiveThumb_reports, H.
  - apply call_reports; [ discriminate | ]. apply with_lastDx_reports, H.
  - unfold handlePanResponderMove. cbv zeta. break_if; [ exact H | ].
    apply with_lastDx_reports, update_reports, U.
  - apply call_reports; [ discriminate | ]. apply bounceToStep_reports, H.
  - unfold handleTrackPress. break_if; [ exact H | ].
    apply call_reports; [ discriminate | ].
    assert (H0 : reportsCommitted d (onSeekStart s))
      by (apply call_reports; [ discriminate | exact H ]).
    unfold updateTrackStepAndStyle. cbv zeta.
    cbn [props onSeekStart call]. rewrite U. cbn [negb].
    assert (H3 : forall x s', reportsCommitted d s' ->
                              reportsCommitted d (updateValue x s'))
      by (intros x s' Hs; apply updateValue_reports, Hs).
    break_if; auto with slider_reports.
  - unfold onAccessibilityAction. cbv zeta.
    apply call_reports; [ discriminate | ]. apply moveTo_reports.
    apply updateValue_reports. exact U.
  - apply reset_reports, H.
  - unfold receiveValue. cbv zeta. apply componentDidUpdate_reports.
    destruct H as [U' L]. split; [ exact U' | exact L ].
Qed.

Lemma run_reports es : forall s, reportsCommitted d s -> reportsCommitted d (run es s).
Proof.
  induction es as [ | e es IH ]; intros s H; cbn.
  - exact H.
  - apply IH, handle_reports, H.
Qed.

End Reports.

(** X9: on a single-value slider, after any sequence of events since
    construction, the committed value [lastValue] is the value last passed
    to [onValueChange], and the rounded [value] prop of the construction as
    long as [onValueChange] has not been called. *)
Theorem committed_is_last_reported (p : SliderProps) (es : list Event) :
  useRange p = false ->
  lastValue (run es (mounted (constructor p)))
  = lastReported (trace (run es (mounted (constructor p))))
      (getRoundedValue p (value p)).
Proof.
  intro U.
  apply (run_reports (getRoundedValue p (value p)) es (mounted (constructor p))).
  split; [ exact U | ].
  cbn. rewrite U.
  assert (W : forall t : list Call,
             (forall c, In c t -> forall v, c <> onValueChange_call v) ->
             forall d, lastReported t d = d).
  { induction t as [ | c t IH ]; intros N d; [ reflexivity | ].
    destruct c; try (cbn; apply IH; intros c' I; apply N; right; exact I).
    exfalso. exact (N _ (or_introl eq_refl) v eq_refl). }
  symmetry. apply W. unfold checkProps.
  destruct (ge (minimumValue p) (maximumValue p));
    destruct (lt (value p) (minimumValue p) || gt (value p) (maximumValue p));
    cbn; intros c I v;
    repeat (destruct I as [<- | I]; [ discriminate | ]); contradiction.
Qed.

(** Witness of [committed_is_last_reported]: a drag, a release, an
    increment, a rotation and a new layout of the track. *)
Lemma committed_is_last_reported_witness :
  lastValue
    (run (firstLayout 100 24
          ++ [PanResponderGrant; PanResponderMove (num 44); PanResponderRelease;
              AccessibilityAction increment; OrientationChanged;
              TrackLayout (mkMeasurements (num 200) (num 6))])
       (mounted (constructor (sliderProps 0 100 10 false))))
  = lastReported
      (trace
         (run (firstLayout 100 24
               ++ [PanResponderGrant; PanResponderMove (num 44);
                   PanResponderRelease; AccessibilityAction increment;
                   OrientationChanged;
                   TrackLayout (mkMeasurements (num 200) (num 6))])
            (mounted (constructor (sliderProps 0 100 10 false)))))
      (getRoundedValue (sliderProps 0 100 10 false)
         (value (sliderProps 0 100 10 false))).
Proof.
  apply (committed_is_last_reported (sliderProps 0 100 10 false)). reflexivity.
Defined.

(** * Reset *)

(** [update] on a single-value slider, as an equation on the component:
    with the primary thumb active, and with the minimum thumb active, which
    is not rendered. *)
Lemma update_single_primary dx s :
  useRange (props s) = false -> isDefaultThumbActive s = true ->
  update dx s
  = onValueChange (getValueForX s (updatedOffset dx s))
      (moveTo (updatedOffset dx s) (with_x (updatedOffset dx s) s)).
Proof.
  intros U A. unfold update. cbv zeta. fold (updatedOffset dx s).
  set (x := updatedOffset dx s).
  assert (S1 : set_x x s = with_x x s) by (unfold set_x; rewrite A; reflexivity).
  rewrite S1.
  destruct (moveTo_core x (with_x x s)) as [P [S [_ [_ [_ [_ [_ [_ [I _]]]]]]]]].
  rewrite P. cbn [props with_x]. rewrite U. cbn [negb].
  unfold updateValue. rewrite P. cbn [props with_x]. rewrite U.
  rewrite (getValueForX_ext (with_x x s) _ x P S I). reflexivity.
Qed.

Lemma update_single_minimum dx s :
  useRange (props s) = false -> isDefaultThumbActive s = false ->
  minThumb_current s = false ->
  update dx s
  = onValueChange (getValueForX s (updatedOffset dx s))
      (with_x_min (updatedOffset dx s) s).
Proof.
  intros U A M. unfold update. cbv zeta. fold (updatedOffset dx s).
  set (x := updatedOffset dx s).
  assert (S1 : set_x x s = with_x_min x s)
    by (unfold set_x; rewrite A; reflexivity).
  rewrite S1.
  assert (Mv : moveTo x (with_x_min x s) = with_x_min x s).
  { unfold moveTo, moveMinTo, isDefaultThumbActive in *. cbn. rewrite A, M.
    reflexivity. }
  rewrite Mv. cbn [props with_x_min]. rewrite U. cbn [negb].
  unfold updateValue. cbn [props with_x_min]. rewrite U. reflexivity.
Qed.

(** X10: [reset] on a single-value slider puts the primary offset at the
    initial value and the minimum offset at the initial minimum value, both
    brought onto the track, and leaves the minimum thumb active; it calls
    [onValueChange] twice, with the value of the primary offset and then
    with the value of the minimum offset, which is the one that stays
    committed. *)
Theorem reset_single_value (s : Slider) :
  useRange (props s) = false ->
  minThumb_current s = false ->
  activeThumbRef (reset s) = minThumb
  /\ _x (reset s) = resting s (getXForValue s (initialValue s))
  /\ _x_min (reset s) = resting s (getXForValue s (minInitialValue s))
  /\ trace (reset s)
     = trace s
       ++ [onValueChange_call (getValueForX s (_x (reset s)));
           onValueChange_call (getValueForX s (_x_min (reset s)))]
  /\ lastValue (reset s) = getValueForX s (_x_min (reset s))
  /\ lastMinValue (reset s) = minInitialValue s.
Proof.
  intros U M. unfold reset. cbv zeta.
  set (s1 := setActiveThumb thumb
               (with_lastDx (num 0)
                  (with_lastMinValue
                     (minInitialValue (with_lastValue (initialValue s) s))
                     (with_lastValue (initialValue s) s)))).
  assert (U1 : useRange (props s1) = false) by exact U.
  assert (S2 : set_x (getXForValue s1 (initialValue s1)) s1
               = with_x (getXForValue s (initialValue s)) s1) by reflexivity.
  rewrite S2.
  set (s2 := with_x (getXForValue s (initialValue s)) s1).
  assert (U2 : useRange (props s2) = false) by exact U.
  assert (A2 : isDefaultThumbActive s2 = true) by reflexivity.
  rewrite (update_single_primary (num 0) s2 U2 A2).
  assert (X2 : updatedOffset (num 0) s2
               = resting s (getXForValue s (initialValue s))) by reflexivity.
  rewrite X2. set (c1 := resting s (getXForValue s (initialValue s))).
  assert (V2 : getValueForX s2 c1 = getValueForX s c1) by reflexivity.
  rewrite V2.
  set (m := moveTo c1 (with_x c1 s2)).
  assert (Hm : props m = props s /\ state m = state s
               /\ initialThumbSize m = initialThumbSize s
               /\ minThumb_current m = false
               /\ _x m = c1 /\ trace m = trace s
               /\ minInitialValue m = minInitialValue s
               /\ lastMinValue m = minInitialValue s).
  { unfold m.
    destruct (moveTo_core c1 (with_x c1 s2))
      as [P [S [_ [X [_ [_ [_ [MI [I [_ [MT _]]]]]]]]]]].
    destruct (moveTo_single c1 (with_x c1 s2) U2 A2) as [T _].
    rewrite P, S, I, MT, X, T, MI.
    assert (LM : lastMinValue (moveTo c1 (with_x c1 s2))
                 = lastMinValue (with_x c1 s2)).
    { assert (A2' : isDefaultThumbActive (with_x c1 s2) = true) by reflexivity.
      assert (U2' : useRange (props (with_x c1 s2)) = false) by exact U.
      unfold moveTo. rewrite A2', U2'. cbv zeta.
      destruct (thumb_current (with_x c1 s2)); reflexivity. }
    rewrite LM. repeat split. exact M. }
  destruct Hm as [Pm [Sm [Im [Mm [Xm [Tm [MIm LMm]]]]]]].
  set (s3 := onValueChange (getValueForX s c1) m).
  set (s4 := setActiveThumb minThumb s3).
  assert (G4 : getXForValue s4 (minInitialValue s4)
               = getXForValue s (minInitialValue s)).
  { unfold s4, s3, onValueChange, setActiveThumb.
    cbn [minInitialValue call with_lastValue with_activeThumbRef].
    rewrite MIm. apply getXForValue_ext; [ exact Pm | exact Sm ]. }
  assert (A4 : isDefaultThumbActive s4 = false) by reflexivity.
  assert (S5 : set_x (getXForValue s4 (minInitialValue s4)) s4
               = with_x_min (getXForValue s (minInitialValue s)) s4)
    by (unfold set_x; rewrite A4, G4; reflexivity).
  rewrite S5.
  set (s5 := with_x_min (getXForValue s (minInitialValue s)) s4).
  assert (U5 : useRange (props s5) = false)
    by (change (useRange (props m) = false); rewrite Pm; exact U).
  assert (A5 : isDefaultThumbActive s5 = false) by reflexivity.
  assert (M5 : minThumb_current s5 = false)
    by (change (minThumb_current m = false); exact Mm).
  rewrite (update_single_minimum (num 0) s5 U5 A5 M5).
  assert (X5 : updatedOffset (num 0) s5
               = resting s (getXForValue s (minInitialValue s))).
  { unfold updatedOffset, resting, get_x. rewrite A5.
    change (state s5) with (state m). rewrite Sm. reflexivity. }
  rewrite X5. set (c2 := resting s (getXForValue s (minInitialValue s))).
  assert (V5 : getValueForX s5 c2 = getValueForX s c2).
  { apply getValueForX_ext;
      [ change (props m = props s) | change (state m = state s)
      | change (initialThumbSize m = initialThumbSize s) ]; assumption. }
  rewrite V5.
  change (activeThumbRef (onValueChange (getValueForX s c2) (with_x_min c2 s5)))
    with minThumb.
  change (_x (onValueChange (getValueForX s c2) (with_x_min c2 s5))) with (_x m).
  change (_x_min (onValueChange (getValueForX s c2) (with_x_min c2 s5))) with c2.
  change (lastValue (onValueChange (getValueForX s c2) (with_x_min c2 s5)))
    with (getValueForX s c2).
  change (lastMinValue (onValueChange (getValueForX s c2) (with_x_min c2 s5)))
    with (lastMinValue m).
  change (trace (onValueChange (getValueForX s c2) (with_x_min c2 s5)))
    with ((trace m ++ [onValueChange_call (getValueForX s c1)])
          ++ [onValueChange_call (getValueForX s c2)]).
  rewrite Xm, Tm, LMm, <- app_assoc. repeat split.
Qed.

(** Witness of [reset_single_value]: the stepped slider after a drag. *)
Lemma reset_single_value_witness :
  activeThumbRef (reset (heldAt 44 steppedSlider)) = minThumb
  /\ lastValue (reset (heldAt 44 steppedSlider))
     = getValueForX (heldAt 44 steppedSlider)
         (_x_min (reset (heldAt 44 steppedSlider))).
Proof.
  destruct (reset_single_value (heldAt 44 steppedSlider))
    as [A [_ [_ [_ [L _]]]]]; try (vm_compute; reflexivity).
  split; [ exact A | exact L ].
Defined.

(** * Measurement *)

Lemma seq_same (a : number) : isNaN a = false -> seq a a = true.
Proof.
  destruct a as [ | | q | ]; intro H; try discriminate; try reflexivity.
  apply seq_Fin. reflexivity.
Qed.

(** [componentDidUpdate] keeps the props, the React state, the measured
    sizes and the refs. *)
Lemma componentDidUpdate_frame pp ps s :
  props (componentDidUpdate pp ps s) = props s
  /\ state (componentDidUpdate pp ps s) = state s
  /\ containerSize (componentDidUpdate pp ps s) = containerSize s
  /\ trackSize (componentDidUpdate pp ps s) = trackSize s
  /\ thumbSize (componentDidUpdate pp ps s) = thumbSize s
  /\ minInitialValue (componentDidUpdate pp ps s) = minInitialValue s.
Proof.
  unfold componentDidUpdate. cbv zeta.
  set (s1 := if negb (useRange (props s)) && sne (value pp) (value (props s))
             then _ else s).
  assert (F1 : props s1 = props s /\ state s1 = state s
               /\ containerSize s1 = containerSize s
               /\ trackSize s1 = trackSize s /\ thumbSize s1 = thumbSize s
               /\ minInitialValue s1 = minInitialValue s).
  { unfold s1. break_if; [ | repeat split ].
    match goal with
    | |- context [moveTo ?x ?s'] =>
        destruct (moveTo_setting x s')
          as [P [S [_ [_ [_ [_ [_ [MI [C [T H]]]]]]]]]]
    end.
    rewrite P, S, MI, C, T, H. repeat split. }
  destruct F1 as [P1 [S1 [C1 [T1 [H1 MI1]]]]].
  break_if; [ | repeat split; assumption ].
  match goal with
  | |- context [moveTo ?x ?s'] =>
      destruct (moveTo_setting x s')
        as [P [S [_ [_ [_ [_ [_ [MI [C [T H]]]]]]]]]]
  end.
  rewrite P, S, MI, C, T, H. cbn. repeat split; assumption.
Qed.

(** When [measureCompleted] has changed, [componentDidUpdate] takes the
    thumb size of the state as the initial thumb size and puts both offsets
    at the initial values. *)
Lemma componentDidUpdate_measured pp ps s :
  measureCompleted ps <> measureCompleted (state s) ->
  initialThumbSize (componentDidUpdate pp ps s) = st_thumbSize (state s)
  /\ atInitialValues (componentDidUpdate pp ps s).
Proof.
  intro N. unfold componentDidUpdate. cbv zeta.
  set (s1 := if negb (useRange (props s)) && sne (value pp) (value (props s))
             then _ else s).
  assert (S1 : state s1 = state s).
  { unfold s1. break_if; [ | reflexivity ].
    match goal with
    | |- context [moveTo ?x ?s'] => destruct (moveTo_setting x s') as [_ [-> _]]
    end.
    reflexivity. }
  clearbody s1. rewrite S1.
  assert (C : negb (Bool.eqb (measureCompleted ps) (measureCompleted (state s)))
              = true).
  { destruct (measureCompleted ps), (measureCompleted (state s));
      try reflexivity; exfalso; apply N; reflexivity. }
  rewrite C.
  match goal with
  | |- context [moveTo ?x ?s'] =>
      destruct (moveTo_core x s') as [P [S [_ [X [M [_ [I [MI [T _]]]]]]]]];
      set (f := moveTo x s') in *
  end.
  unfold atInitialValues.
  rewrite T, X, M, I, MI.
  rewrite !(getXForValue_ext _ f _ P S).
  cbn. repeat split.
Qed.

Lemma setState_measureCompleted_state b s :
  state (setState_measureCompleted b s)
  = mkState (st_containerSize (state s)) (st_trackSize (state s))
      (st_thumbSize (state s)) b.
Proof.
  unfold setState_measureCompleted. cbv zeta.
  destruct (Bool.eqb (measureCompleted (state s)) b) eqn:E.
  - apply Bool.eqb_prop in E. rewrite <- E. destruct (state s); reflexivity.
  - destruct (componentDidUpdate_frame (props s) (state s)
                (with_state (mkState (st_containerSize (state s))
                               (st_trackSize (state s))
                               (st_thumbSize (state s)) b) s))
      as [_ [S _]].
    rewrite S. reflexivity.
Qed.

Lemma setState_measureCompleted_sizes b s :
  containerSize (setState_measureCompleted b s) = containerSize s
  /\ trackSize (setState_measureCompleted b s) = trackSize s
  /\ thumbSize (setState_measureCompleted b s) = thumbSize s
  /\ props (setState_measureCompleted b s) = props s.
Proof.
  unfold setState_measureCompleted. cbv zeta.
  destruct (Bool.eqb (measureCompleted (state s)) b); [ repeat split | ].
  match goal with
  | |- context [componentDidUpdate ?pp ?ps ?s'] =>
      destruct (componentDidUpdate_frame pp ps s') as [P [_ [C [T [H _]]]]]
  end.
  rewrite P, C, T, H. repeat split.
Qed.

Lemma setState_sizes_frame c t h s :
  state (setState_sizes c t h s) = mkState c t h (measureCompleted (state s))
  /\ containerSize (setState_sizes c t h s) = containerSize s
  /\ trackSize (setState_sizes c t h s) = trackSize s
  /\ thumbSize (setState_sizes c t h s) = thumbSize s
  /\ props (setState_sizes c t h s) = props s.
Proof.
  unfold setState_sizes. cbv zeta.
  match goal with
  | |- context [componentDidUpdate ?pp ?ps ?s'] =>
      destruct (componentDidUpdate_frame pp ps s') as [P [S [C [T [H _]]]]]
  end.
  rewrite P, S, C, T, H. repeat split.
Qed.

Lemma measured_set_measured name m s :
  measured name (set_measured name m s) = Some m.
Proof. destruct name; reflexivity. Qed.

Lemma measured_frame name s s' :
  containerSize s' = containerSize s -> trackSize s' = trackSize s ->
  thumbSize s' = thumbSize s -> measured name s' = measured name s.
Proof. intros C T H. destruct name; cbn; assumption. Qed.

(** After [handleMeasure] the measured variable holds the layout, unless
    the layout was the one already held. *)
Lemma handleMeasure_measured name l s :
  handleMeasure name l s = s
  \/ measured name (handleMeasure name l s)
     = Some (mkMeasurements (width l) (height l)).
Proof.
  unfold handleMeasure. cbv zeta.
  destruct (match measured name s with Some _ => _ | None => false end);
    [ left; reflexivity | right ].
  set (s1 := set_measured name (mkMeasurements (width l) (height l)) s).
  assert (M1 : measured name s1 = Some (mkMeasurements (width l) (height l)))
    by apply measured_set_measured.
  destruct (containerSize s1) as [c | ]; [ | exact M1 ].
  destruct (thumbSize s1) as [h | ]; [ | exact M1 ].
  destruct (trackSize s1) as [t | ]; [ | exact M1 ].
  rewrite <- M1.
  destruct (setState_sizes_frame c t h s1) as [_ [C1 [T1 [H1 _]]]].
  destruct (setState_measureCompleted_sizes true (setState_sizes c t h s1))
    as [C2 [T2 [H2 _]]].
  apply measured_frame; congruence.
Qed.

(** X11: a layout delivered twice is measured once: the second of two
    equal layout callbacks changes nothing. *)
Theorem handleMeasure_idempotent
    (name : MeasuredVariableName) (l : Measurements) (s : Slider) :
  isNaN (width l) = false -> isNaN (height l) = false ->
  handleMeasure name l (handleMeasure name l s) = handleMeasure name l s.
Proof.
  intros W H.
  destruct (handleMeasure_measured name l s) as [E | M].
  - rewrite E. exact E.
  - set (r := handleMeasure name l s) in *.
    unfold handleMeasure at 1. cbv zeta. rewrite M. cbn [width height].
    rewrite (seq_same _ W), (seq_same _ H). reflexivity.
Qed.

(** Witness of [handleMeasure_idempotent]: the track of the stepped slider
    laid out again at 200. *)
Lemma handleMeasure_idempotent_witness :
  handleMeasure name_trackSize (mkMeasurements (num 200) (num 6))
    (handleMeasure name_trackSize (mkMeasurements (num 200) (num 6))
       steppedSlider)
  = handleMeasure name_trackSize (mkMeasurements (num 200) (num 6))
      steppedSlider.
Proof.
  apply (handleMeasure_idempotent name_trackSize
           (mkMeasurements (num 200) (num 6)) steppedSlider); reflexivity.
Defined.

Lemma setState_measureCompleted_changes b s :
  measureCompleted (state s) <> b ->
  initialThumbSize (setState_measureCompleted b s) = st_thumbSize (state s)
  /\ atInitialValues (setState_measureCompleted b s).
Proof.
  intro N. unfold setState_measureCompleted. cbv zeta.
  destruct (Bool.eqb (measureCompleted (state s)) b) eqn:E.
  - apply Bool.eqb_prop in E. contradiction.
  - match goal with
    | |- context [componentDidUpdate ?pp ?ps ?s'] =>
        destruct (componentDidUpdate_measured pp ps s') as [I A]
    end.
    + cbn. exact N.
    + rewrite I. split; [ reflexivity | exact A ].
Qed.

Lemma setState_measureCompleted_same b s :
  measureCompleted (state s) = b -> setState_measureCompleted b s = s.
Proof.
  intro E. unfold setState_measureCompleted. cbv zeta.
  rewrite E, Bool.eqb_reflx. reflexivity.
Qed.

Lemma setState_measureCompleted_initialValue b s :
  isNaN (value (props s)) = false ->
  initialValue (setState_measureCompleted b s) = initialValue s.
Proof.
  intro N. unfold setState_measureCompleted. cbv zeta. break_if; [ reflexivity | ].
  match goal with
  | |- context [componentDidUpdate ?pp ?ps ?s'] =>
      destruct (componentDidUpdate_initial ps s' N) as [I _]
  end.
  exact I.
Qed.

Lemma setState_sizes_initialValue c t h s :
  isNaN (value (props s)) = false ->
  initialValue (setState_sizes c t h s) = initialValue s.
Proof.
  intro N. unfold setState_sizes. cbv zeta.
  match goal with
  | |- context [componentDidUpdate ?pp ?ps ?s'] =>
      destruct (componentDidUpdate_initial ps s' N) as [I _]
  end.
  exact I.
Qed.

Lemma eta_Measurements (l : Measurements) :
  mkMeasurements (width l) (height l) = l.
Proof. destruct l; reflexivity. Qed.

(** The layout that completes the three measured variables completes the
    measurement. *)
Lemma handleMeasure_completes name l s c t h :
  measured name s = None -> measureCompleted (state s) = false ->
  containerSize (set_measured name l s) = Some c ->
  thumbSize (set_measured name l s) = Some h ->
  trackSize (set_measured name l s) = Some t ->
  state (handleMeasure name l s) = mkState c t h true
  /\ initialThumbSize (handleMeasure name l s) = h
  /\ atInitialValues (handleMeasure name l s).
Proof.
  intros M F C H T. unfold handleMeasure. cbv zeta.
  rewrite M, eta_Measurements, C, H, T.
  set (s1 := set_measured name l s).
  assert (F1 : measureCompleted (state s1) = false)
    by (unfold s1; destruct name; exact F).
  destruct (setState_sizes_frame c t h s1) as [S2 _].
  rewrite F1 in S2.
  set (s2 := setState_sizes c t h s1) in *.
  assert (N2 : measureCompleted (state s2) <> true)
    by (rewrite S2; discriminate).
  destruct (setState_measureCompleted_changes true s2 N2) as [I A].
  rewrite (setState_measureCompleted_state true s2), I, S2.
  repeat split; apply A.
Qed.

(** A layout that leaves a measured variable unknown is only recorded. *)
Lemma handleMeasure_pending name l s :
  measured name s = None ->
  containerSize (set_measured name l s) = None
  \/ thumbSize (set_measured name l s) = None
  \/ trackSize (set_measured name l s) = None ->
  handleMeasure name l s = set_measured name l s.
Proof.
  intros M P. unfold handleMeasure. cbv zeta.
  rewrite M, eta_Measurements.
  destruct P as [P | [P | P]]; rewrite P;
    repeat match goal with
      | |- context [match ?o with Some _ => _ | None => _ end] => destruct o
      end; reflexivity.
Qed.

Lemma handle_layoutEvent name l s :
  measureCompleted (state s) = false ->
  handle (layoutEvent name l) s = handleMeasure name l s.
Proof.
  intro F. destruct name; cbn [layoutEvent handle]; try reflexivity.
  unfold onTrackLayout. rewrite (setState_measureCompleted_same false s F).
  reflexivity.
Qed.

(** X12: on a slider that has measured nothing yet, the first two layout
    callbacks, whichever they are, leave the measurement incomplete; the
    third completes it: the state then holds the three sizes, the initial
    thumb size is the measured thumb, and the two offsets are those of the
    initial values. *)
Theorem first_measurement
    (s : Slider) (lay : MeasuredVariableName -> Measurements)
    (n1 n2 n3 : MeasuredVariableName) :
  n1 <> n2 -> n1 <> n3 -> n2 <> n3 ->
  containerSize s = None -> trackSize s = None -> thumbSize s = None ->
  measureCompleted (state s) = false ->
  measureCompleted
    (state (run [layoutEvent n1 (lay n1); layoutEvent n2 (lay n2)] s)) = false
  /\ state (run [layoutEvent n1 (lay n1); layoutEvent n2 (lay n2);
                 layoutEvent n3 (lay n3)] s)
     = mkState (lay name_containerSize) (lay name_trackSize)
         (lay name_thumbSize) true
  /\ initialThumbSize
       (run [layoutEvent n1 (lay n1); layoutEvent n2 (lay n2);
             layoutEvent n3 (lay n3)] s)
     = lay name_thumbSize
  /\ atInitialValues
       (run [layoutEvent n1 (lay n1); layoutEvent n2 (lay n2);
             layoutEvent n3 (lay n3)] s).
Proof.
  intros N12 N13 N23 C T H F.
  cbn [run fold_left].
  assert (E1 : handle (layoutEvent n1 (lay n1)) s
               = set_measured n1 (lay n1) s).
  { rewrite (handle_layoutEvent n1 (lay n1) s F).
    apply handleMeasure_pending.
    - destruct n1; assumption.
    - destruct n1; cbn; auto. }
  rewrite E1. set (s1 := set_measured n1 (lay n1) s).
  assert (F1 : measureCompleted (state s1) = false)
    by (unfold s1; destruct n1; exact F).
  assert (E2 : handle (layoutEvent n2 (lay n2)) s1
               = set_measured n2 (lay n2) s1).
  { rewrite (handle_layoutEvent n2 (lay n2) s1 F1).
    apply handleMeasure_pending.
    - unfold s1. destruct n1, n2; try assumption; contradiction.
    - unfold s1.
      destruct n1, n2, n3; try contradiction; cbn; auto. }
  rewrite E2. set (s2 := set_measured n2 (lay n2) s1).
  assert (F2 : measureCompleted (state s2) = false)
    by (unfold s2; destruct n2; exact F1).
  split; [ exact F2 | ].
  rewrite (handle_layoutEvent n3 (lay n3) s2 F2).
  apply handleMeasure_completes.
  - unfold s2, s1. destruct n1, n2, n3; try assumption; contradiction.
  - exact F2.
  - unfold s2, s1. destruct n1, n2, n3; try contradiction; reflexivity.
  - unfold s2, s1. destruct n1, n2, n3; try contradiction; reflexivity.
  - unfold s2, s1. destruct n1, n2, n3; try contradiction; reflexivity.
Qed.

(** Witness of [first_measurement]: thumb, container and track of a newly
    mounted stepped slider, in this order. *)
Lemma first_measurement_witness :
  initialThumbSize
    (run [layoutEvent name_thumbSize (mkMeasurements (num 24) (num 24));
          layoutEvent name_containerSize (mkMeasurements (num 100) (num 28));
          layoutEvent name_trackSize (mkMeasurements (num 100) (num 6))]
       (mounted (constructor (sliderProps 0 100 10 false))))
  = mkMeasurements (num 24) (num 24).
Proof.
  apply (first_measurement
           (mounted (constructor (sliderProps 0 100 10 false)))
           (fun n => match n with
                     | name_containerSize => mkMeasurements (num 100) (num 28)
                     | name_trackSize => mkMeasurements (num 100) (num 6)
                     | name_thumbSize => mkMeasurements (num 24) (num 24)
                     end)
           name_thumbSize name_containerSize name_trackSize);
    try discriminate; reflexivity.
Defined.

(** With the measurement pending, a layout callback leaves the offsets at
    the initial values and does not change these. *)
Lemma handleMeasure_atInitialValues name l s :
  isNaN (value (props s)) = false ->
  measureCompleted (state s) = false ->
  atInitialValues s ->
  atInitialValues (handleMeasure name l s)
  /\ initialValue (handleMeasure name l s) = initialValue s.
Proof.
  intros N F A. unfold handleMeasure. cbv zeta.
  destruct (match measured name s with Some _ => _ | None => false end);
    [ split; [ exact A | reflexivity ] | ].
  set (s1 := set_measured name (mkMeasurements (width l) (height l)) s).
  assert (A1 : atInitialValues s1 /\ initialValue s1 = initialValue s
               /\ props s1 = props s /\ measureCompleted (state s1) = false).
  { unfold s1. destruct name; cbn [set_measured];
      (split; [ exact A | split; [ reflexivity | split; [ reflexivity | exact F ] ] ]). }
  destruct A1 as [A1 [I1 [P1 F1]]].
  destruct (containerSize s1) as [c | ]; [ | split; assumption ].
  destruct (thumbSize s1) as [h | ]; [ | split; assumption ].
  destruct (trackSize s1) as [t | ]; [ | split; assumption ].
  assert (N1 : isNaN (value (props s1)) = false) by (rewrite P1; exact N).
  destruct (setState_sizes_frame c t h s1) as [S2 [_ [_ [_ P2]]]].
  assert (I2 := setState_sizes_initialValue c t h s1 N1).
  set (s2 := setState_sizes c t h s1) in *.
  assert (N2 : isNaN (value (props s2)) = false) by (rewrite P2; exact N1).
  assert (C2 : measureCompleted (state s2) <> true)
    by (rewrite S2, F1; discriminate).
  split.
  - apply (setState_measureCompleted_changes true s2 C2).
  - rewrite (setState_measureCompleted_initialValue true s2 N2), I2. exact I1.
Qed.

(** X13: once the measurement is completed, a layout callback of the
    track, with a new size or with the same, puts the primary offset back
    at the offset of the initial value, whatever has been dragged or
    committed since. *)
Theorem track_layout_restores_initial (s : Slider) (l : Measurements) :
  isNaN (value (props s)) = false ->
  measureCompleted (state s) = true ->
  _x (onTrackLayout l s) = getXForValue (onTrackLayout l s) (initialValue s)
  /\ initialValue (onTrackLayout l s) = initialValue s.
Proof.
  intros N T. unfold onTrackLayout.
  assert (C : measureCompleted (state s) <> false) by (rewrite T; discriminate).
  destruct (setState_measureCompleted_changes false s C) as [_ A].
  assert (I := setState_measureCompleted_initialValue false s N).
  assert (S := setState_measureCompleted_state false s).
  destruct (setState_measureCompleted_sizes false s) as [_ [_ [_ P]]].
  set (s' := setState_measureCompleted false s) in *.
  assert (N' : isNaN (value (props s')) = false) by (rewrite P; exact N).
  assert (F' : measureCompleted (state s') = false) by (rewrite S; reflexivity).
  destruct (handleMeasure_atInitialValues name_trackSize l s' N' F' A)
    as [[X _] I'].
  rewrite I' in X. rewrite I', I in *. split; [ exact X | reflexivity ].
Qed.

(** Witness of [track_layout_restores_initial]: the stepped slider, held at
    the offset 44, whose track is laid out again with the same size. *)
Lemma track_layout_restores_initial_witness :
  _x (onTrackLayout (mkMeasurements (num 100) (num 6)) (heldAt 44 steppedSlider))
  = getXForValue
      (onTrackLayout (mkMeasurements (num 100) (num 6)) (heldAt 44 steppedSlider))
      (initialValue (heldAt 44 steppedSlider)).
Proof.
  apply (track_layout_restores_initial (heldAt 44 steppedSlider)
           (mkMeasurements (num 100) (num 6)));
    vm_compute; reflexivity.
Defined.

(** X14: after an orientation change of a measured slider and the layout
    callback of the track that follows, with a new size or the same, the
    primary offset is the offset, in the geometry of the moment, of the
    value that was committed before the orientation changed. *)
Theorem orientation_restores_committed (s : Slider) (l : Measurements) :
  isNaN (value (props s)) = false ->
  measureCompleted (state s) = true ->
  _x (run [OrientationChanged; TrackLayout l] s)
  = getXForValue (run [OrientationChanged; TrackLayout l] s) (lastValue s)
  /\ initialValue (run [OrientationChanged; TrackLayout l] s) = lastValue s.
Proof.
  intros N T. cbn [run fold_left handle].
  destruct (onOrientationChanged_initial s N) as [I [_ F]].
  assert (A : atInitialValues (onOrientationChanged s)
              /\ props (onOrientationChanged s) = props s).
  { unfold onOrientationChanged. cbv zeta.
    match goal with
    | |- context [setState_measureCompleted false ?s'] =>
        destruct (setState_measureCompleted_changes false s') as [_ A];
        [ cbn; rewrite T; discriminate | ];
        destruct (setState_measureCompleted_sizes false s') as [_ [_ [_ P]]]
    end.
    split; [ exact A | exact P ]. }
  destruct A as [A P].
  set (o := onOrientationChanged s) in *.
  unfold onTrackLayout. rewrite (setState_measureCompleted_same false o F).
  assert (N' : isNaN (value (props o)) = false) by (rewrite P; exact N).
  destruct (handleMeasure_atInitialValues name_trackSize l o N' F A)
    as [[X _] I'].
  rewrite I' in X. rewrite I', I in *. split; [ exact X | reflexivity ].
Qed.

(** Witness of [orientation_restores_committed]: the stepped slider, held
    at the offset 44, rotated onto a track of 200. *)
Lemma orientation_restores_committed_witness :
  _x (run [OrientationChanged; TrackLayout (mkMeasurements (num 200) (num 6))]
        (heldAt 44 steppedSlider))
  = getXForValue
      (run [OrientationChanged; TrackLayout (mkMeasurements (num 200) (num 6))]
         (heldAt 44 steppedSlider))
      (lastValue (heldAt 44 steppedSlider)).
Proof.
  apply (orientation_restores_committed (heldAt 44 steppedSlider)
           (mkMeasurements (num 200) (num 6)));
    vm_compute; reflexivity.
Defined.

(** * A new value prop *)

(** X15: a new [value] prop on a single-value slider whose primary thumb
    is active makes the rounded value the initial value and moves the
    primary offset to its offset, without committing it and without a call;
    a range slider ignores the prop. *)
Theorem value_prop_moves_thumb (s : Slider) (v : number) :
  (useRange (props s) = false -> isDefaultThumbActive s = true ->
   sne (value (props s)) v = true ->
   initialValue (receiveValue v s) = getRoundedValue (props s) v
   /\ _x (receiveValue v s) = getXForValue s (getRoundedValue (props s) v)
   /\ lastValue (receiveValue v s) = lastValue s
   /\ trace (receiveValue v s) = trace s)
  /\ (useRange (props s) = true ->
      initialValue (receiveValue v s) = initialValue s
      /\ _x (receiveValue v s) = _x s
      /\ thumbStyles_left (receiveValue v s) = thumbStyles_left s
      /\ lastValue (receiveValue v s) = lastValue s
      /\ trace (receiveValue v s) = trace s).
Proof.
  unfold receiveValue. cbv zeta.
  set (p' := mkProps v (initialMinimumValue (props s))
               (initialMaximumValue (props s)) (minimumValue (props s))
               (maximumValue (props s)) (step (props s)) (disabled (props s))
               (useRange (props s)) (disableRTL_prop (props s))
               (isRTL (props s))).
  assert (Up : useRange p' = useRange (props s)) by reflexivity.
  assert (Vp : value p' = v) by reflexivity.
  assert (Rp : getRoundedValue p' v = getRoundedValue (props s) v)
    by reflexivity.
  set (s0 := with_props p' s).
  assert (P0 : props s0 = p') by reflexivity.
  assert (S0 : state s0 = state s) by reflexivity.
  assert (A0 : isDefaultThumbActive s0 = isDefaultThumbActive s) by reflexivity.
  assert (X0 : forall y, getXForValue s0 y = getXForValue s y) by reflexivity.
  assert (F0 : initialValue s0 = initialValue s /\ _x s0 = _x s
               /\ thumbStyles_left s0 = thumbStyles_left s
               /\ lastValue s0 = lastValue s /\ trace s0 = trace s)
    by (repeat split).
  destruct F0 as [I0 [Xs0 [T0 [L0 Tr0]]]].
  clearbody s0. clearbody p'.
  unfold componentDidUpdate. cbv zeta. rewrite P0, Up, Vp.
  split.
  - intros U A N. rewrite U, N. cbn [negb andb].
    set (s1 := with_initialValue (getRoundedValue p' v) s0).
    set (s2 := with_x (getXForValue s1 (initialValue s1)) s1).
    assert (U2 : useRange (props s2) = false)
      by (change (useRange (props s0) = false); rewrite P0, Up; exact U).
    assert (A2 : isDefaultThumbActive s2 = true)
      by (change (isDefaultThumbActive s0 = true); rewrite A0; exact A).
    destruct (moveTo_core (_x s2) s2) as [_ [S [_ [X [_ [_ [I _]]]]]]].
    destruct (moveTo_single (_x s2) s2 U2 A2) as [T L].
    set (f := moveTo (_x s2) s2) in *.
    rewrite S. change (state s2) with (state s0).
    rewrite S0, Bool.eqb_reflx. cbn [negb].
    rewrite I, X, L, T.
    change (initialValue s2) with (getRoundedValue p' v).
    change (_x s2) with (getXForValue s0 (getRoundedValue p' v)).
    change (lastValue s2) with (lastValue s0).
    change (trace s2) with (trace s0).
    rewrite X0, Rp, L0, Tr0. repeat split.
  - intro U. rewrite U. cbn [negb andb].
    rewrite S0, Bool.eqb_reflx. cbn [negb].
    repeat split; assumption.
Qed.

(** Witness of [value_prop_moves_thumb]: the value prop 37 on the stepped
    slider. *)
Lemma value_prop_moves_thumb_witness :
  initialValue (receiveValue (num 37) steppedSlider)
  = getRoundedValue (props steppedSlider) (num 37)
  /\ _x (receiveValue (num 37) steppedSlider)
     = getXForValue steppedSlider (getRoundedValue (props steppedSlider) (num 37))
  /\ lastValue (receiveValue (num 37) steppedSlider) = lastValue steppedSlider
  /\ trace (receiveValue (num 37) steppedSlider) = trace steppedSlider.
Proof.
  apply (proj1 (value_prop_moves_thumb steppedSlider (num 37)));
    vm_compute; reflexivity.
Defined.

(** * An accepted move on a range slider *)

Lemma updateValue_range x s :
  useRange (props s) = true ->
  updateValue x s
  = if isDefaultThumbActive s
    then call (reportedRange (props s) (lastMinValue s) (getValueForX s x))
           (with_lastValue (getValueForX s x) s)
    else call (reportedRange (props s) (getValueForX s x) (lastValue s))
           (with_lastMinValue (getValueForX s x) s).
Proof.
  intro U. unfold updateValue, onRangeChange, reportedRange. rewrite U.
  cbv zeta. destruct (isDefaultThumbActive s); cbn;
    destruct (isRTL (props s) && disableRTL_prop (props s)); reflexivity.
Qed.

(** X16: on a range slider, a move that the guard accepts restyles the
    active thumb only, commits the value of the new offset for that thumb
    only, and calls [onRangeChange] once with the committed pair, mirrored
    in a right-to-left layout with the [disableRTL] prop set. *)
Theorem range_move_accepted (s : Slider) (dx : number) :
  useRange (props s) = true ->
  moveAccepted (updatedOffset dx s) s = true ->
  (isDefaultThumbActive s = true ->
   thumbStyles_left (update dx s)
   = Some (leftFor s (if shouldForceLTR s
                      then sub (width (st_trackSize (state s)))
                             (updatedOffset dx s)
                      else updatedOffset dx s))
   /\ minThumbStyles_left (update dx s) = minThumbStyles_left s
   /\ lastValue (update dx s) = getValueForX s (updatedOffset dx s)
   /\ lastMinValue (update dx s) = lastMinValue s
   /\ trace (update dx s)
      = trace s
        ++ [reportedRange (props s) (lastMinValue s)
              (getValueForX s (updatedOffset dx s))])
  /\ (isDefaultThumbActive s = false ->
      minThumbStyles_left (update dx s)
      = Some (leftFor s (if shouldForceLTR s
                         then sub (sub (width (st_trackSize (state s)))
                                     (width (initialThumbSize s)))
                                (updatedOffset dx s)
                         else updatedOffset dx s))
      /\ thumbStyles_left (update dx s) = thumbStyles_left s
      /\ lastMinValue (update dx s) = getValueForX s (updatedOffset dx s)
      /\ lastValue (update dx s) = lastValue s
      /\ trace (update dx s)
         = trace s
           ++ [reportedRange (props s)
                 (getValueForX s (updatedOffset dx s)) (lastValue s)]).
Proof.
  intros U Acc. unfold update. cbv zeta. fold (updatedOffset dx s).
  set (x := updatedOffset dx s) in *.
  split; intro A.
  - assert (S1 : set_x x s = with_x x s)
      by (unfold set_x; rewrite A; reflexivity).
    rewrite S1. unfold moveAccepted in Acc. rewrite A in Acc.
    apply andb_prop in Acc. destruct Acc as [Tc G].
    set (left := leftFor s (if shouldForceLTR s
                            then sub (width (st_trackSize (state s))) x
                            else x)) in *.
    set (s2 := with_minTrackStyles_width
                 (Some (sub left (toNumber (minThumbStyles_left s))))
                 (with_thumbStyles_left (Some left) (with_x x s))).
    assert (M : moveTo x (with_x x s) = updateValue x s2).
    { unfold moveTo.
      assert (A1 : isDefaultThumbActive (with_x x s) = true) by exact A.
      rewrite A1.
      cbn [thumb_current with_x props state shouldForceLTR minThumbStyles_left].
      rewrite Tc, U. cbv zeta.
      change (leftFor (with_x x s)) with (leftFor s). fold left.
      rewrite G. reflexivity. }
    rewrite M.
    assert (U2 : useRange (props s2) = true) by exact U.
    rewrite (updateValue_range x s2 U2).
    assert (A2 : isDefaultThumbActive s2 = true) by exact A.
    rewrite A2. cbn [props call with_lastValue].
    change (props s2) with (props s). rewrite U. cbn [negb].
    change (getValueForX s2 x) with (getValueForX s x).
    repeat split.
  - assert (S1 : set_x x s = with_x_min x s)
      by (unfold set_x; rewrite A; reflexivity).
    rewrite S1. unfold moveAccepted in Acc. rewrite A in Acc.
    apply andb_prop in Acc. destruct Acc as [Tc G].
    set (left := leftFor s (if shouldForceLTR s
                            then sub (sub (width (st_trackSize (state s)))
                                        (width (initialThumbSize s))) x
                            else x)) in *.
    set (s2 := with_minTrackStyles_left (Some x)
                 (with_minTrackStyles_width
                    (Some (sub (toNumber (thumbStyles_left s)) x))
                    (with_minThumbStyles_left (Some left) (with_x_min x s)))).
    assert (M : moveTo x (with_x_min x s) = updateValue x s2).
    { unfold moveTo, moveMinTo.
      assert (A1 : isDefaultThumbActive (with_x_min x s) = false) by exact A.
      rewrite A1.
      cbn [minThumb_current with_x_min props state shouldForceLTR
             thumbStyles_left initialThumbSize].
      rewrite Tc. cbv zeta.
      change (leftFor (with_x_min x s)) with (leftFor s). fold left.
      rewrite G. reflexivity. }
    rewrite M.
    assert (U2 : useRange (props s2) = true) by exact U.
    rewrite (updateValue_range x s2 U2).
    assert (A2 : isDefaultThumbActive s2 = false) by exact A.
    rewrite A2. cbn [props call with_lastMinValue].
    change (props s2) with (props s). rewrite U. cbn [negb].
    change (getValueForX s2 x) with (getValueForX s x).
    repeat split.
Qed.

(** Witness of [range_move_accepted]: the primary thumb of the range
    slider moved by 50. *)
Lemma range_move_accepted_witness :
  lastValue (update (num 50) rangeSlider)
  = getValueForX rangeSlider (updatedOffset (num 50) rangeSlider)
  /\ lastMinValue (update (num 50) rangeSlider) = lastMinValue rangeSlider.
Proof.
  destruct (proj1 (range_move_accepted rangeSlider (num 50)
                     ltac:(vm_compute; reflexivity)
                     ltac:(vm_compute; reflexivity))
              ltac:(vm_compute; reflexivity))
    as [_ [_ [L [M _]]]].
  split; [ exact L | exact M ].
Defined.

(** * The start of the track *)



(** * Accessibility actions on a single-value slider *)

(** X19: an accessibility action on a single-value slider takes as new
    value the value of the primary offset, plus the step for an increment
    away from [maximumValue], less the step for a decrement away from
    [minimumValue]; it moves the offset to [getXForValue] of the new value,
    commits and passes to [onValueChange] what [getValueForX] reads at that
    offset, restyles the thumb there and announces the new value. *)
Theorem accessibility_action_commits (a : ActionName) (s : Slider) :
  useRange (props s) = false -> isDefaultThumbActive s = true ->
  accessibilityNewValue s a
  = match a with
    | increment =>
        if sne (getValueForX s (_x s)) (maximumValue (props s))
        then add (getValueForX s (_x s)) (step (props s))
        else getValueForX s (_x s)
    | decrement =>
        if sne (getValueForX s (_x s)) (minimumValue (props s))
        then sub (getValueForX s (_x s)) (step (props s))
        else getValueForX s (_x s)
    | _ => getValueForX s (_x s)
    end
  /\ _x (onAccessibilityAction a s) = getXForValue s (accessibilityNewValue s a)
  /\ lastValue (onAccessibilityAction a s)
     = getValueForX s (getXForValue s (accessibilityNewValue s a))
  /\ trace (onAccessibilityAction a s)
     = trace s
       ++ [onValueChange_call
             (getValueForX s (getXForValue s (accessibilityNewValue s a)));
           announceForAccessibility (accessibilityNewValue s a)]
  /\ (thumb_current s = true ->
      thumbStyles_left (onAccessibilityAction a s)
      = Some (leftFor s
                (if shouldForceLTR s
                 then sub (width (st_trackSize (state s)))
                        (getXForValue s (accessibilityNewValue s a))
                 else getXForValue s (accessibilityNewValue s a)))).
Proof.
  intros U A.
  split; [ unfold accessibilityNewValue; cbv zeta; destruct a; reflexivity | ].
  unfold onAccessibilityAction. cbv zeta.
  set (nv := accessibilityNewValue s a).
  set (x := getXForValue s nv).
  unfold updateValue. cbn [props with_x]. rewrite U.
  unfold onValueChange. cbn [_x with_x call with_lastValue].
  change (getValueForX (with_x x s) x) with (getValueForX s x).
  unfold moveTo, isDefaultThumbActive in *. cbn. rewrite A, U.
  destruct (thumb_current s); cbn; repeat split; try reflexivity.
  all: try (rewrite <- app_assoc; reflexivity).
  intro H; discriminate H.
Qed.

(** Witness of [accessibility_action_commits]: an increment on the stepped
    slider held at the offset 44. *)
Lemma accessibility_action_commits_witness :
  lastValue (onAccessibilityAction increment (heldAt 44 steppedSlider))
  = getValueForX (heldAt 44 steppedSlider)
      (getXForValue (heldAt 44 steppedSlider)
         (accessibilityNewValue (heldAt 44 steppedSlider) increment)).
Proof.
  refine (proj1 (proj2 (proj2 (accessibility_action_commits increment
                                 (heldAt 44 steppedSlider) _ _))));
    vm_compute; reflexivity.
Defined.

(** * Measurement of a single-value slider *)

(** X20: on a single-value slider, an orientation change makes the last
    committed values the initial values and clears [measureCompleted]; the
    layout callbacks and orientation changes that follow, in any number and
    order, leave the last committed value and minimum value as they were
    and call nothing. *)
Theorem measurement_keeps_value (s : Slider) (es : list Event) :
  useRange (props s) = false ->
  minThumb_current s = false ->
  isNaN (value (props s)) = false ->
  forallb isMeasurement es = true ->
  initialValue (onOrientationChanged s) = lastValue s
  /\ minInitialValue (onOrientationChanged s) = lastMinValue s
  /\ measureCompleted (state (onOrientationChanged s)) = false
  /\ lastValue (run (OrientationChanged :: es) s) = lastValue s
  /\ lastMinValue (run (OrientationChanged :: es) s) = lastMinValue s
  /\ trace (run (OrientationChanged :: es) s) = trace s.
Proof.
  intros U M N A.
  destruct (onOrientationChanged_initial s N) as [I1 [I2 I3]].
  assert (C : committed (lastValue s) (lastMinValue s) (trace s)
                (run (OrientationChanged :: es) s)).
  { apply run_measurement_quiet; [ cbn; exact A | ].
    repeat split; assumption. }
  destruct C as [_ [_ [C1 [C2 C3]]]].
  repeat split; assumption.
Qed.

(** Witness of [measurement_keeps_value]: the stepped slider held at 44 is
    rotated and measured again on a track of 200. *)
Lemma measurement_keeps_value_witness :
  lastValue
    (run (OrientationChanged
          :: [ContainerLayout (mkMeasurements (num 200) (num 28));
              TrackLayout (mkMeasurements (num 200) (num 6))])
       (heldAt 44 steppedSlider))
  = lastValue (heldAt 44 steppedSlider).
Proof.
  apply (measurement_keeps_value (heldAt 44 steppedSlider)
           [ContainerLayout (mkMeasurements (num 200) (num 28));
            TrackLayout (mkMeasurements (num 200) (num 6))]);
    vm_compute; reflexivity.
Defined.
